(** * MistMatch admin dashboard: the worklist controllers

    A shallow embedding of the moderation console's client-side state
    machine (the [Dashboard] React component): the pending-verification
    queue (batched loading, low-watermark refill, periodic refresh,
    decisions) and the gender-review list (filter, sort, pagination,
    in-place correction).

    How the component is read here.  A React function component is run
    once per render; every [const [x, setX] = useState(..)] is a constant
    of that render, and every function declared in the body closes over
    the constants of the render that created it.  A handler is therefore
    a function of two states: the render [r] whose constants its body
    reads, and the state [s] current when its setters are applied.  A
    setter given a value overwrites the field; a setter given a function
    [prev => ..] is applied to the field of [s].  Replies of the remote
    services (record store, photo storage) are arguments of the handler
    that awaits them. *)

From Stdlib Require Import String Ascii ZArith Bool Arith List Lia Permutation Sorted.
Import ListNotations.
Local Open Scope Z_scope.
Local Open Scope list_scope.

(** ** JavaScript helpers *)

(** [Array.prototype.slice(start, end)] with both bounds given: negative
    bounds count from the end, bounds are clamped to the array, and an
    empty range yields the empty array. *)
Definition js_slice {A : Type} (l : list A) (start end_ : Z) : list A :=
  let len := Z.of_nat (length l) in
  let k := if start <? 0 then Z.max (len + start) 0 else Z.min start len in
  let final := if end_ <? 0 then Z.max (len + end_) 0 else Z.min end_ len in
  firstn (Z.to_nat (final - k)) (skipn (Z.to_nat k) l).

(** Truthiness of a [string | null] value: [null] and the empty string
    are falsy. *)
Definition truthy (v : option string) : bool :=
  match v with
  | Some s => negb (String.eqb s EmptyString)
  | None => false
  end.

(** [count || 0] for a [number | null]. *)
Definition or_zero (c : option Z) : Z :=
  match c with
  | Some n => n
  | None => 0
  end.

(** [data || []] for an array or [null]. *)
Definition or_nil {A : Type} (d : option (list A)) : list A :=
  match d with
  | Some l => l
  | None => []
  end.

(** [s.endsWith(suffix)]. *)
Definition endsWith (s suffix : string) : bool :=
  let n := String.length s in
  let m := String.length suffix in
  (m <=? n)%nat && String.eqb (substring (n - m) m s) suffix.

(** [Math.ceil(a / b)] on integers, for a positive divisor. *)
Definition ceil_div (a b : Z) : Z := - ((- a) / b).

(** [Array.prototype.sort(cmp)]: a stable sort, an element stays before
    the later elements it compares equal to. *)
Fixpoint sort_insert {A : Type} (cmp : A -> A -> Z) (x : A) (l : list A) : list A :=
  match l with
  | [] => [x]
  | y :: ys => if cmp x y <=? 0 then x :: y :: ys else y :: sort_insert cmp x ys
  end.

Fixpoint js_sort {A : Type} (cmp : A -> A -> Z) (l : list A) : list A :=
  match l with
  | [] => []
  | x :: xs => sort_insert cmp x (js_sort cmp xs)
  end.

(** ** Data model *)

(** The values of [is_verified]. *)
Inductive VerificationStatus : Type :=
  | st_verified
  | st_unverified
  | st_pending.

(** [type User].  [created_at] is kept as the instant
    [new Date(created_at).getTime()] denotes. *)
Record User : Type := mkUser {
  id : string;
  name : option string;
  age : option Z;
  gender : option string;
  country : option string;
  image_urls : option (list string);
  verification_photo_url : option string;
  is_verified : option VerificationStatus;
  created_at : Z
}.

(** [type PendingUser = User & { verification_photos: string[] }]. *)
Record PendingUser : Type := mkPendingUser {
  pu_user : User;
  verification_photos : list string
}.

Definition pid (p : PendingUser) : string := id (pu_user p).

Definition ids (l : list PendingUser) : list string := map pid l.

(** [{ ...u, gender: newGender }]. *)
Definition with_gender (g : string) (u : User) : User :=
  mkUser (id u) (name u) (age u) (Some g) (country u) (image_urls u)
         (verification_photo_url u) (is_verified u) (created_at u).

Definition pending_with_gender (g : string) (p : PendingUser) : PendingUser :=
  mkPendingUser (with_gender g (pu_user p)) (verification_photos p).

Inductive Mode : Type :=
  | dashboard
  | user_verification
  | gender_verification.

Inductive SortOrder : Type :=
  | desc
  | asc.

(** The two values the gender buttons write. *)
Inductive GenderValue : Type :=
  | Male
  | Female.

Definition gender_string (g : GenderValue) : string :=
  match g with
  | Male => "Male"
  | Female => "Female"
  end.

(** ['all' | 'unknown' | 'Male' | 'Female']. *)
Inductive GenderFilter : Type :=
  | f_all
  | f_unknown
  | f_named (g : GenderValue).

Inductive GenderUpdateStatus : Type :=
  | idle
  | saving
  | success
  | error.

(** The argument of [handleDecision]: ['verified' | 'rejected']. *)
Inductive Decision : Type :=
  | dec_verified
  | dec_rejected.

(** A line written with [console.error(message, error)]. *)
Definition LogLine : Type := (string * string)%type.

(** The component's state: one field per [useState], and the browser
    console the handlers write to.  ([adminName] and the router belong to
    authentication and are left out.) *)
Record State : Type := mkState {
  mode : Mode;
  allPendingUsers : list PendingUser;
  queueUsers : list PendingUser;
  totalPending : Z;
  totalUnknown : Z;
  hasMore : bool;
  currentUser : option PendingUser;
  isUserVerifying : bool;
  genderUsers : list User;
  filteredGenderUsers : list User;
  sortOrder : SortOrder;
  genderFilter : GenderFilter;
  currentPage : Z;
  genderUpdateStatus : GenderUpdateStatus;
  console : list LogLine
}.

(** The initial values of the [useState] calls: the first render. *)
Definition initState : State :=
  mkState dashboard [] [] 0 0 true None false [] [] desc f_all 1 idle [].

(** The setters. *)
Definition setMode (v : Mode) (s : State) : State :=
  mkState v (allPendingUsers s) (queueUsers s) (totalPending s) (totalUnknown s)
    (hasMore s) (currentUser s) (isUserVerifying s) (genderUsers s)
    (filteredGenderUsers s) (sortOrder s) (genderFilter s) (currentPage s)
    (genderUpdateStatus s) (console s).

Definition setAllPendingUsers (v : list PendingUser) (s : State) : State :=
  mkState (mode s) v (queueUsers s) (totalPending s) (totalUnknown s)
    (hasMore s) (currentUser s) (isUserVerifying s) (genderUsers s)
    (filteredGenderUsers s) (sortOrder s) (genderFilter s) (currentPage s)
    (genderUpdateStatus s) (console s).

Definition setQueueUsers (v : list PendingUser) (s : State) : State :=
  mkState (mode s) (allPendingUsers s) v (totalPending s) (totalUnknown s)
    (hasMore s) (currentUser s) (isUserVerifying s) (genderUsers s)
    (filteredGenderUsers s) (sortOrder s) (genderFilter s) (currentPage s)
    (genderUpdateStatus s) (console s).

Definition setTotalPending (v : Z) (s : State) : State :=
  mkState (mode s) (allPendingUsers s) (queueUsers s) v (totalUnknown s)
    (hasMore s) (currentUser s) (isUserVerifying s) (genderUsers s)
    (filteredGenderUsers s) (sortOrder s) (genderFilter s) (currentPage s)
    (genderUpdateStatus s) (console s).

Definition setTotalUnknown (v : Z) (s : State) : State :=
  mkState (mode s) (allPendingUsers s) (queueUsers s) (totalPending s) v
    (hasMore s) (currentUser s) (isUserVerifying s) (genderUsers s)
    (filteredGenderUsers s) (sortOrder s) (genderFilter s) (currentPage s)
    (genderUpdateStatus s) (console s).

Definition setHasMore (v : bool) (s : State) : State :=
  mkState (mode s) (allPendingUsers s) (queueUsers s) (totalPending s)
    (totalUnknown s) v (currentUser s) (isUserVerifying s) (genderUsers s)
    (filteredGenderUsers s) (sortOrder s) (genderFilter s) (currentPage s)
    (genderUpdateStatus s) (console s).

Definition setCurrentUser (v : option PendingUser) (s : State) : State :=
  mkState (mode s) (allPendingUsers s) (queueUsers s) (totalPending s)
    (totalUnknown s) (hasMore s) v (isUserVerifying s) (genderUsers s)
    (filteredGenderUsers s) (sortOrder s) (genderFilter s) (currentPage s)
    (genderUpdateStatus s) (console s).

Definition setIsUserVerifying (v : bool) (s : State) : State :=
  mkState (mode s) (allPendingUsers s) (queueUsers s) (totalPending s)
    (totalUnknown s) (hasMore s) (currentUser s) v (genderUsers s)
    (filteredGenderUsers s) (sortOrder s) (genderFilter s) (currentPage s)
    (genderUpdateStatus s) (console s).

Definition setGenderUsers (v : list User) (s : State) : State :=
  mkState (mode s) (allPendingUsers s) (queueUsers s) (totalPending s)
    (totalUnknown s) (hasMore s) (currentUser s) (isUserVerifying s) v
    (filteredGenderUsers s) (sortOrder s) (genderFilter s) (currentPage s)
    (genderUpdateStatus s) (console s).

Definition setFilteredGenderUsers (v : list User) (s : State) : State :=
  mkState (mode s) (allPendingUsers s) (queueUsers s) (totalPending s)
    (totalUnknown s) (hasMore s) (currentUser s) (isUserVerifying s)
    (genderUsers s) v (sortOrder s) (genderFilter s) (currentPage s)
    (genderUpdateStatus s) (console s).

Definition setSortOrder (v : SortOrder) (s : State) : State :=
  mkState (mode s) (allPendingUsers s) (queueUsers s) (totalPending s)
    (totalUnknown s) (hasMore s) (currentUser s) (isUserVerifying s)
    (genderUsers s) (filteredGenderUsers s) v (genderFilter s) (currentPage s)
    (genderUpdateStatus s) (console s).

Definition setGenderFilter (v : GenderFilter) (s : State) : State :=
  mkState (mode s) (allPendingUsers s) (queueUsers s) (totalPending s)
    (totalUnknown s) (hasMore s) (currentUser s) (isUserVerifying s)
    (genderUsers s) (filteredGenderUsers s) (sortOrder s) v (currentPage s)
    (genderUpdateStatus s) (console s).

Definition setCurrentPage (v : Z) (s : State) : State :=
  mkState (mode s) (allPendingUsers s) (queueUsers s) (totalPending s)
    (totalUnknown s) (hasMore s) (currentUser s) (isUserVerifying s)
    (genderUsers s) (filteredGenderUsers s) (sortOrder s) (genderFilter s) v
    (genderUpdateStatus s) (console s).

Definition setGenderUpdateStatus (v : GenderUpdateStatus) (s : State) : State :=
  mkState (mode s) (allPendingUsers s) (queueUsers s) (totalPending s)
    (totalUnknown s) (hasMore s) (currentUser s) (isUserVerifying s)
    (genderUsers s) (filteredGenderUsers s) (sortOrder s) (genderFilter s)
    (currentPage s) v (console s).

(** [console.error(message, err)]. *)
Definition console_error (message err : string) (s : State) : State :=
  mkState (mode s) (allPendingUsers s) (queueUsers s) (totalPending s)
    (totalUnknown s) (hasMore s) (currentUser s) (isUserVerifying s)
    (genderUsers s) (filteredGenderUsers s) (sortOrder s) (genderFilter s)
    (currentPage s) (genderUpdateStatus s) (console s ++ [(message, err)]).

(** ** Replies of the remote services *)

(** What the record store resolves the pending-users query with:
    [{ data, error, count }]. *)
Record QueryReply : Type := mkQueryReply {
  q_data : option (list User);
  q_error : option string;
  q_count : option Z
}.

(** The pending-users query together with what the photo storage answers
    while the entries are resolved: [list(user.id)] gives the file names
    of a folder (or nothing), [getPublicUrl(path)] the public URL. *)
Record PendingReply : Type := mkPendingReply {
  pr_query : QueryReply;
  pr_list : string -> option (list string);
  pr_publicUrl : string -> string
}.

(** What the record store resolves an update with: the [error] field. *)
Definition MutationReply : Type := option string.

(** ** The pending-verification queue *)

Definition PAGE_SIZE : Z := 20.
Definition LOAD_MORE_THRESHOLD : Z := 3.

Definition isImageName (f : string) : bool :=
  endsWith f ".jpg" || endsWith f ".png" || endsWith f ".jpeg".

(** The photo URLs of one user: the image files of the user's folder. *)
Definition photoUrls (reply : PendingReply) (u : User) : list string :=
  match pr_list reply (id u) with
  | Some files =>
      map (fun f => pr_publicUrl reply (id u ++ "/" ++ f)%string)
          (filter isImageName files)
  | None => []
  end.

(** [fetchPendingUsers]: the pair [{ users, total }]; a query error is
    written to the console and answered with [{ users: [], total: 0 }]. *)
Definition fetchPendingUsers (reply : PendingReply) (s : State)
  : (list PendingUser * Z) * State :=
  match q_error (pr_query reply) with
  | Some e => (([], 0), console_error "Error loading pending users:" e s)
  | None =>
      let usersWithPhotos :=
        map (fun u => mkPendingUser u (photoUrls reply u))
            (or_nil (q_data (pr_query reply))) in
      ((usersWithPhotos, or_zero (q_count (pr_query reply))), s)
  end.

(** [loadNextBatch(refresh)], run by the closure of render [r]. *)
Definition loadNextBatch (r : State) (refresh : bool) (reply : PendingReply)
  (s : State) : State :=
  let '((users, total), s) := fetchPendingUsers reply s in
  let s := setTotalPending total s in
  if refresh then
    let s := setAllPendingUsers users s in
    if negb (isUserVerifying r) then
      let nextBatch := js_slice users 0 PAGE_SIZE in
      let s := setQueueUsers nextBatch s in
      setHasMore (PAGE_SIZE <? Z.of_nat (length users)) s
    else s
  else
    let s := setAllPendingUsers users s in
    let start := Z.of_nat (length (queueUsers r)) in
    let nextBatch := js_slice users start (start + PAGE_SIZE) in
    let s := setQueueUsers (queueUsers s ++ nextBatch) s in
    setHasMore (start + Z.of_nat (length nextBatch) <? Z.of_nat (length users)) s.

(** The condition of the low-watermark effect. *)
Definition autoLoadDue (s : State) : bool :=
  isUserVerifying s
  && (Z.of_nat (length (queueUsers s)) <=? LOAD_MORE_THRESHOLD)
  && hasMore s.

(** [startVerification]. *)
Definition startVerification (r s : State) : State :=
  if (length (queueUsers r) =? 0)%nat then s
  else
    let s := setIsUserVerifying true s in
    setCurrentUser (hd_error (queueUsers r)) s.

(** The value [handleDecision] writes to [is_verified]. *)
Definition decisionStatus (decision : Decision) : VerificationStatus :=
  match decision with
  | dec_verified => st_verified
  | dec_rejected => st_unverified
  end.

(** The update [handleDecision] sends: the record's identifier and the
    new [is_verified]; nothing is sent without a displayed entry. *)
Definition handleDecision_update (r : State) (decision : Decision)
  : option (string * VerificationStatus) :=
  match currentUser r with
  | None => None
  | Some cu => Some (pid cu, decisionStatus decision)
  end.

(** [handleDecision]: the callback given to [.then], which takes no
    argument; [reply] is what the update resolved with. *)
Definition handleDecision (r : State) (decision : Decision)
  (reply : MutationReply) (s : State) : State :=
  match currentUser r with
  | None => s
  | Some cu =>
      let remainingQueue :=
        filter (fun u => negb (String.eqb (pid u) (pid cu))) (queueUsers r) in
      let s := setQueueUsers remainingQueue s in
      let s := setTotalPending (Z.max 0 (totalPending s - 1)) s in
      if 0 <? Z.of_nat (length remainingQueue) then
        setCurrentUser (hd_error remainingQueue) s
      else
        let s := setCurrentUser None s in
        let s := setIsUserVerifying false s in
        setMode dashboard s
  end.

(** [handleGenderChange], the gender select of the entry under review,
    once the update has resolved.  The two [setTimeout] calls that bring
    the status back to [idle] are the event [StatusTimeout] below. *)
Definition handleGenderChange (r : State) (newGender : string)
  (reply : MutationReply) (s : State) : State :=
  match currentUser r with
  | None => s
  | Some cu =>
      let s := setGenderUpdateStatus saving s in
      match reply with
      | Some e =>
          let s := console_error "Error updating gender:" e s in
          setGenderUpdateStatus error s
      | None =>
          let s := setCurrentUser (Some (pending_with_gender newGender cu)) s in
          let s := setQueueUsers
                     (map (fun u => if String.eqb (pid u) (pid cu)
                                    then pending_with_gender newGender u else u)
                          (queueUsers s)) s in
          setGenderUpdateStatus success s
      end
  end.

(** ** The gender-review list *)

(** The string a filter value is. *)
Definition filter_string (f : GenderFilter) : string :=
  match f with
  | f_all => "all"
  | f_unknown => "unknown"
  | f_named g => gender_string g
  end.

(** [u.gender === v] for a [string | null] field and a string. *)
Definition gender_is (u : User) (v : string) : bool :=
  match gender u with
  | Some g => String.eqb g v
  | None => false
  end.

(** The callback given to [filter]. *)
Definition matchesFilter (f : GenderFilter) (u : User) : bool :=
  match f with
  | f_unknown => negb (truthy (gender u))
  | _ => gender_is u (filter_string f)
  end.

(** The filter stage of the derived view. *)
Definition applyGenderFilter (f : GenderFilter) (l : list User) : list User :=
  match f with
  | f_all => l
  | _ => filter (matchesFilter f) l
  end.

(** The comparator of the sort stage. *)
Definition compareCreated (o : SortOrder) (a b : User) : Z :=
  match o with
  | asc => created_at a - created_at b
  | desc => created_at b - created_at a
  end.

(** The derived view: filter, then sort. *)
Definition derivedView (l : list User) (f : GenderFilter) (o : SortOrder)
  : list User :=
  js_sort (compareCreated o) (applyGenderFilter f l).

(** The effect on [genderUsers, genderFilter, sortOrder]. *)
Definition derivedViewEffect (s : State) : State :=
  let filtered := derivedView (genderUsers s) (genderFilter s) (sortOrder s) in
  let s := setFilteredGenderUsers filtered s in
  setCurrentPage 1 s.

(** The effect on [mode]; the [fetchAllUsers] it starts resolves as the
    event [AllUsersLoaded] below. *)
Definition modeEffect (s : State) : State :=
  match mode s with
  | gender_verification => setCurrentPage 1 s
  | _ => s
  end.

(** A call of one of the setters [handleGenderUpdate] uses.
    [setGenderUsers(prev => prev.map(f))] stores the array [map] returns,
    which is a new array whatever [f] changes;
    [setTotalUnknown(prev => g(prev))] stores a number. *)
Inductive SetterCall : Type :=
  | call_setGenderUsers_map (f : User -> User)
  | call_setTotalUnknown (g : Z -> Z)
  | call_console_error (message err : string).

Definition applyCall (s : State) (c : SetterCall) : State :=
  match c with
  | call_setGenderUsers_map f => setGenderUsers (map f (genderUsers s)) s
  | call_setTotalUnknown g => setTotalUnknown (g (totalUnknown s)) s
  | call_console_error message err => console_error message err s
  end.

Definition applyCalls (calls : list SetterCall) (s : State) : State :=
  fold_left applyCall calls s.

(** The calls give [genderUsers] a new array. *)
Definition givesNewGenderUsers (calls : list SetterCall) : bool :=
  existsb (fun c => match c with
                    | call_setGenderUsers_map _ => true
                    | _ => false
                    end) calls.

(** [handleGenderUpdate], once the update has resolved: the calls it
    makes, in order. *)
Definition handleGenderUpdate_calls (userId : string) (newGender : GenderValue)
  (reply : MutationReply) : list SetterCall :=
  match reply with
  | Some e => [call_console_error "Error updating gender:" e]
  | None =>
      [call_setGenderUsers_map
         (fun u => if String.eqb (id u) userId
                   then with_gender (gender_string newGender) u
                   else u);
       call_setTotalUnknown (fun prev => Z.max 0 (prev - 1))]
  end.

(** [handleGenderUpdate], once the update has resolved. *)
Definition handleGenderUpdate (userId : string) (newGender : GenderValue)
  (reply : MutationReply) (s : State) : State :=
  applyCalls (handleGenderUpdate_calls userId newGender reply) s.

(** The values computed while rendering the gender screen. *)
Definition totalPages (s : State) : Z :=
  ceil_div (Z.of_nat (length (filteredGenderUsers s))) PAGE_SIZE.

Definition paginatedUsers (s : State) : list User :=
  js_slice (filteredGenderUsers s)
           ((currentPage s - 1) * PAGE_SIZE) (currentPage s * PAGE_SIZE).

(** The two pagination buttons. *)
Definition previousPage (s : State) : State :=
  setCurrentPage (Z.max 1 (currentPage s - 1)) s.

Definition nextPage (r s : State) : State :=
  setCurrentPage (Z.min (totalPages r) (currentPage s + 1)) s.

(** [fetchUnknownCount] and [fetchAllUsers], from what the store resolved. *)
Definition fetchUnknownCount (count : option Z) : Z := or_zero count.

Definition fetchAllUsers (data : option (list User)) : list User := or_nil data.

(** ** The session: what happens to a mounted component *)

Definition mode_eqb (a b : Mode) : bool :=
  match a, b with
  | dashboard, dashboard => true
  | user_verification, user_verification => true
  | gender_verification, gender_verification => true
  | _, _ => false
  end.

Definition sort_eqb (a b : SortOrder) : bool :=
  match a, b with
  | desc, desc => true
  | asc, asc => true
  | _, _ => false
  end.

Definition filter_eqb (a b : GenderFilter) : bool :=
  match a, b with
  | f_all, f_all => true
  | f_unknown, f_unknown => true
  | f_named Male, f_named Male => true
  | f_named Female, f_named Female => true
  | _, _ => false
  end.

(** The effects that run after an update is committed: an effect runs
    again when one of its dependencies differs from the previous render.
    [genderUsers] is compared by identity, so [newList] tells whether
    [setGenderUsers] was given a new array.  (The low-watermark effect
    only starts a fetch; its completion is the event [AutoLoad].) *)
Definition runEffects (newList : bool) (prev next : State) : State :=
  let next :=
    if mode_eqb (mode prev) (mode next) then next else modeEffect next in
  if newList
     || negb (filter_eqb (genderFilter prev) (genderFilter next))
     || negb (sort_eqb (sortOrder prev) (sortOrder next))
  then derivedViewEffect next
  else next.

Inductive Event : Type :=
  (* the mount effect: [loadNextBatch()] of the first render resolves *)
  | InitialLoad (reply : PendingReply)
  (* the interval callback, created by the mount effect and so by the
     first render: its [loadNextBatch(true)] resolves *)
  | Tick (reply : PendingReply)
  (* [fetchUnknownCount().then(setTotalUnknown)] resolves *)
  | UnknownCount (count : option Z)
  (* the [loadNextBatch()] of the low-watermark effect resolves *)
  | AutoLoad (reply : PendingReply)
  (* the buttons of the dashboard screen *)
  | ClickVerifyUsers
  | ClickVerifyGenders
  (* "Back to Dashboard", on either screen *)
  | ClickBack
  (* APPROVE / REJECT, and the update it sent resolves *)
  | ClickDecision (decision : Decision) (reply : MutationReply)
  (* the gender select of the entry under review *)
  | SelectGender (newGender : string) (reply : MutationReply)
  (* one of the [setTimeout(() => setGenderUpdateStatus('idle'))] fires *)
  | StatusTimeout
  (* [fetchAllUsers().then(setGenderUsers)] resolves *)
  | AllUsersLoaded (data : option (list User))
  (* the controls of the gender screen *)
  | SelectFilter (f : GenderFilter)
  | SelectSort (o : SortOrder)
  | ClickPrevious
  | ClickNext
  | ClickGender (userId : string) (newGender : GenderValue) (reply : MutationReply).

(** One event on state [s].  A handler started by a click or by the
    low-watermark effect is the one of the current render, and its reply
    is taken to arrive before anything else happens: it reads [s] itself.
    (A reply that arrives after the page has moved on is an [Arrival]
    below, which carries the render that asked for it.)  A gender update
    from the list runs the effects with what its setter calls say about
    [genderUsers].  The mount effect is declared with the dependency array [[]]: it runs
    once, after the first render, so the [loadNextBatch] it calls and the
    one it hands to [setInterval] are the first render's, whose
    [isUserVerifying] is [false] and whose [queueUsers] is empty: they
    read [initState].  [None]: the control is not on the screen or is
    disabled. *)
Definition step (s : State) (e : Event) : option State :=
  match e with
  | InitialLoad reply => Some (loadNextBatch initState false reply s)
  | Tick reply => Some (loadNextBatch initState true reply s)
  | UnknownCount count => Some (setTotalUnknown (fetchUnknownCount count) s)
  | AutoLoad reply =>
      if autoLoadDue s then Some (loadNextBatch s false reply s) else None
  | ClickVerifyUsers =>
      if mode_eqb (mode s) dashboard && negb (length (queueUsers s) =? 0)%nat
      then Some (startVerification s (setMode user_verification s))
      else None
  | ClickVerifyGenders =>
      if mode_eqb (mode s) dashboard
      then Some (runEffects false s (setMode gender_verification s))
      else None
  | ClickBack =>
      match mode s with
      | dashboard => None
      | user_verification => Some (setMode dashboard (setIsUserVerifying false s))
      | gender_verification => Some (setMode dashboard s)
      end
  | ClickDecision decision reply =>
      match mode s, currentUser s with
      | user_verification, Some _ => Some (handleDecision s decision reply s)
      | _, _ => None
      end
  | SelectGender newGender reply =>
      match mode s, currentUser s with
      | user_verification, Some _ => Some (handleGenderChange s newGender reply s)
      | _, _ => None
      end
  | StatusTimeout => Some (setGenderUpdateStatus idle s)
  | AllUsersLoaded data =>
      Some (runEffects true s (setGenderUsers (fetchAllUsers data) s))
  | SelectFilter f =>
      if mode_eqb (mode s) gender_verification
      then Some (runEffects false s (setGenderFilter f s))
      else None
  | SelectSort o =>
      if mode_eqb (mode s) gender_verification
      then Some (runEffects false s (setSortOrder o s))
      else None
  | ClickPrevious =>
      if mode_eqb (mode s) gender_verification && (0 <? totalPages s)
         && negb (currentPage s =? 1)
      then Some (previousPage s)
      else None
  | ClickNext =>
      if mode_eqb (mode s) gender_verification && (0 <? totalPages s)
         && negb (currentPage s =? totalPages s)
      then Some (nextPage s s)
      else None
  | ClickGender userId newGender reply =>
      if mode_eqb (mode s) gender_verification
         && existsb (fun u => String.eqb (id u) userId) (paginatedUsers s)
      then
        let calls := handleGenderUpdate_calls userId newGender reply in
        Some (runEffects (givesNewGenderUsers calls) s (applyCalls calls s))
      else None
  end.

(** A run of events; [None] as soon as one of them is not possible. *)
Fixpoint run (s : State) (es : list Event) : option State :=
  match es with
  | [] => Some s
  | e :: es' =>
      match step s e with
      | Some s' => run s' es'
      | None => None
      end
  end.

(** The states a session can be in when every reply arrives at once. *)
Inductive reachable : State -> Prop :=
  | reach_init : reachable initState
  | reach_step : forall s e s',
      reachable s -> step s e = Some s' -> reachable s'.

(** ** The earlier dashboard page *)

(** [src/app/dashboard/page.tsx]: the page without batches, counts and
    gender list; its queue is the whole list [pendingUsers]. *)
Module SimplePage.

Record State : Type := mkState {
  pendingUsers : list PendingUser;
  currentUser : option PendingUser;
  isVerifying : bool;
  console : list LogLine
}.

Definition initState : State := mkState [] None false [].

(** [loadPendingUsers]: a query error is written to the console and the
    list is emptied. *)
Definition loadPendingUsers (reply : PendingReply) (s : State) : State :=
  match q_error (pr_query reply) with
  | Some e =>
      mkState [] (currentUser s) (isVerifying s)
              (console s ++ [("Error loading pending users:"%string, e)])
  | None =>
      mkState
        (map (fun u => mkPendingUser u (photoUrls reply u))
             (or_nil (q_data (pr_query reply))))
        (currentUser s) (isVerifying s) (console s)
  end.

(** [startVerification]. *)
Definition startVerification (r s : State) : State :=
  if (length (pendingUsers r) =? 0)%nat then s
  else mkState (pendingUsers s) (hd_error (pendingUsers r)) true (console s).

(** The decision as the string it is. *)
Definition decision_string (decision : Decision) : string :=
  match decision with
  | dec_verified => "verified"
  | dec_rejected => "rejected"
  end.

(** The update sent by this page's [handleDecision]: [is_verified] is
    given the decision itself. *)
Definition handleDecision_update (r : State) (decision : Decision)
  : option (string * string) :=
  match currentUser r with
  | None => None
  | Some cu => Some (pid cu, decision_string decision)
  end.

(** This page's [handleDecision], once the update has resolved. *)
Definition handleDecision (r : State) (decision : Decision)
  (reply : MutationReply) (s : State) : State :=
  match currentUser r with
  | None => s
  | Some cu =>
      let remaining :=
        filter (fun u => negb (String.eqb (pid u) (pid cu))) (pendingUsers r) in
      if 0 <? Z.of_nat (length remaining) then
        mkState remaining (hd_error remaining) (isVerifying s) (console s)
      else
        mkState remaining None false (console s)
  end.

End SimplePage.

(** ** Sample data and scenarios *)

Definition sampleId (n : nat) : string :=
  String "u" (String (ascii_of_nat (48 + n / 10))
             (String (ascii_of_nat (48 + n mod 10)) EmptyString)).

(** A pending record; record [n] was created [n] seconds before the
    newest, so a list in index order is in descending creation order. *)
Definition sampleUser (n : nat) : User :=
  mkUser (sampleId n) None None None None None None (Some st_pending)
         (1000 * (100 - Z.of_nat n)).

Definition sampleUsers (from count : nat) : list User :=
  map sampleUser (seq from count).

(** The store answers with the given records and their exact count; the
    photo folders are empty. *)
Definition storeAnswers (l : list User) : PendingReply :=
  mkPendingReply (mkQueryReply (Some l) None (Some (Z.of_nat (length l))))
                 (fun _ => None) (fun path => path).

(** The store answers the query with an error. *)
Definition storeFails (e : string) : PendingReply :=
  mkPendingReply (mkQueryReply None (Some e) None)
                 (fun _ => None) (fun path => path).

(** [n] approvals in a row, each confirmed by the store. *)
Definition approvals (n : nat) : list Event :=
  repeat (ClickDecision dec_verified None) n.

(** Entries 0 and 1 are loaded and the operator is on the dashboard. *)
Definition loadedTwo : option State :=
  run initState [InitialLoad (storeAnswers (sampleUsers 0 2))].

(** Entries 0 and 1 are loaded and the review is started. *)
Definition twoLoadedReviewing : option State :=
  run initState [InitialLoad (storeAnswers (sampleUsers 0 2)); ClickVerifyUsers].

(** Entries 1 and 2 are loaded and the review is started. *)
Definition reviewingTwo : option State :=
  run initState [InitialLoad (storeAnswers (sampleUsers 1 2)); ClickVerifyUsers].

(** The 45-entry scenario: the store holds entries 0..44 when the page
    is mounted. *)
Definition loaded45 : option State :=
  run initState [InitialLoad (storeAnswers (sampleUsers 0 45))].

(** The review is started and the first 18 entries are approved. *)
Definition reviewed18 : option State :=
  run initState
      ([InitialLoad (storeAnswers (sampleUsers 0 45)); ClickVerifyUsers]
       ++ approvals 18).

(** The refill asks the store again; entries 18..44 are the 27 still
    pending. *)
Definition refill27 : Event := AutoLoad (storeAnswers (sampleUsers 18 27)).

(** The 45-entry scenario as one run. *)
Definition run45 : list Event :=
  [InitialLoad (storeAnswers (sampleUsers 0 45)); ClickVerifyUsers]
  ++ approvals 18 ++ [refill27].

(** The same scenario when the refill started at 3 remaining entries
    resolves before the 18th approval: the store then holds the 28
    entries 17..44. *)
Definition run45_early_refill : list Event :=
  [InitialLoad (storeAnswers (sampleUsers 0 45)); ClickVerifyUsers]
  ++ approvals 17
  ++ [AutoLoad (storeAnswers (sampleUsers 17 28))]
  ++ approvals 1.

(** A record is registered during the review: entries 1..25 are loaded,
    17 are approved, and the refill finds the new entry 0 in front of the
    8 entries still pending. *)
Definition runNewRecord : list Event :=
  [InitialLoad (storeAnswers (sampleUsers 1 25)); ClickVerifyUsers]
  ++ approvals 17
  ++ [AutoLoad (storeAnswers (sampleUsers 0 1 ++ sampleUsers 18 8))].

(** Entries 0..24 are loaded, 17 are approved, and the fetch of the
    refill fails. *)
Definition runFailedRefill : list Event :=
  [InitialLoad (storeAnswers (sampleUsers 0 25)); ClickVerifyUsers]
  ++ approvals 17
  ++ [AutoLoad (storeFails "timeout")].

(** Entries 0..24 are loaded; the 17 decisions are refused by the store,
    which still lists all 25 entries as pending when the refill asks. *)
Definition runRefusedWrites : list Event :=
  [InitialLoad (storeAnswers (sampleUsers 0 25)); ClickVerifyUsers]
  ++ repeat (ClickDecision dec_verified (Some "permission denied"%string)) 17
  ++ [AutoLoad (storeAnswers (sampleUsers 0 25))].

(** The gender screen with two records, the first one already [Male],
    the second one without a gender, and an unknown-gender count of 1. *)
Definition oneKnownOneUnknown : option State :=
  run initState
      [UnknownCount (Some 1);
       ClickVerifyGenders;
       AllUsersLoaded (Some [with_gender "Male" (sampleUser 0); sampleUser 1])].

(** The gender screen with 25 records, on its second page. *)
Definition secondPage : option State :=
  run initState
      [ClickVerifyGenders; AllUsersLoaded (Some (sampleUsers 0 25)); ClickNext].

(** The gender screen with 25 records, none of which has a gender, and
    the filter set to [Male]. *)
Definition emptyGenderScreen : option State :=
  run initState
      [ClickVerifyGenders; AllUsersLoaded (Some (sampleUsers 0 25));
       SelectFilter (f_named Male)].

(** ** Notions used in the statements *)

(** What [fetchPendingUsers] returns does not depend on the state. *)
Definition fetched (reply : PendingReply) : list PendingUser * Z :=
  fst (fetchPendingUsers reply initState).

(** The identifiers a decision event removes: the displayed entry's. *)
Definition decidedBy (s : State) (e : Event) : list string :=
  match e, currentUser s with
  | ClickDecision _ _, Some cu => [pid cu]
  | _, _ => []
  end.

(** The identifiers decided along a run. *)
Fixpoint decidedIds (s : State) (es : list Event) : list string :=
  match es with
  | [] => []
  | e :: es' =>
      match step s e with
      | Some s' => decidedBy s e ++ decidedIds s' es'
      | None => []
      end
  end.

Fixpoint nodupb (l : list string) : bool :=
  match l with
  | [] => true
  | x :: l' => negb (existsb (String.eqb x) l') && nodupb l'
  end.

Definition disjointb (a b : list string) : bool :=
  forallb (fun x => negb (existsb (String.eqb x) b)) a.

Fixpoint prefixb (a b : list string) : bool :=
  match a, b with
  | [], _ => true
  | x :: a', y :: b' => String.eqb x y && prefixb a' b'
  | _ :: _, [] => false
  end.

(** A fetched snapshot fits the session when it lists no identifier
    twice and none that was decided, and when, for a refill, its first
    entries are the entries of the queue (for the initial load: the queue
    is still empty). *)
Definition snapshotFits (s : State) (decided : list string) (e : Event) : bool :=
  match e with
  | InitialLoad reply =>
      let users := ids (fst (fetched reply)) in
      nodupb users && disjointb decided users
      && (length (queueUsers s) =? 0)%nat
  | AutoLoad reply =>
      let users := ids (fst (fetched reply)) in
      nodupb users && disjointb decided users
      && prefixb (ids (queueUsers s)) users
  | Tick reply =>
      let users := ids (fst (fetched reply)) in
      nodupb users && disjointb decided users
  | _ => true
  end.

(** Every fetch of a run fits, given the identifiers decided before. *)
Fixpoint fetchesFit (s : State) (decided : list string) (es : list Event) : bool :=
  match es with
  | [] => true
  | e :: es' =>
      snapshotFits s decided e
      && match step s e with
         | Some s' => fetchesFit s' (decided ++ decidedBy s e) es'
         | None => false
         end
  end.

(** The three parts of the queue invariant. *)
Definition queueInv (s : State) (decided : list string) : Prop :=
  NoDup (ids (queueUsers s))
  /\ (length (queueUsers s) <= length (allPendingUsers s))%nat
  /\ forall x, In x decided -> ~ In x (ids (queueUsers s)).

(** A record has no gender when the field is [null] or the empty string:
    the two values for which [!u.gender] holds, and for which the list
    shows the badge "Unknown". *)
Definition gender_unset (u : User) : Prop :=
  gender u = None \/ gender u = Some EmptyString.

(** [res] is [l] restricted to exactly the records satisfying [P], in the
    order and the number they have in [l]. *)
Definition exactly_those (P : User -> Prop) (l res : list User) : Prop :=
  exists p : User -> bool,
    (forall u, p u = true <-> P u) /\ res = filter p l.

(** The displayed page is at least 1 and at most the number of pages,
    or 1 when there is no page. *)
Definition pageInRange (s : State) : Prop :=
  1 <= currentPage s <= Z.max 1 (totalPages s).

(** ** Replies that arrive late *)

(** [step] takes the reply of a refill, of a decision and of a gender
    correction to arrive in the render that asked for it.  In general the
    page has moved on by then: the handler still reads the render [r] in
    which the fetch or the click was made, and its setters are applied to
    the state of the moment.  An arrival is an event of [step] or one of
    these late replies; [r] is any render in which the request could be
    made. *)
Inductive Arrival : Type :=
  | at_once (e : Event)
  (* the [loadNextBatch()] the low-watermark effect started in render [r]
     resolves *)
  | RefillResolved (r : State) (reply : PendingReply)
  (* the update of a decision clicked in render [r] resolves *)
  | DecisionResolved (r : State) (decision : Decision) (reply : MutationReply)
  (* the gender select is changed: [saving] until the update resolves *)
  | GenderSelectChanged
  (* the update of a gender select changed in render [r] resolves *)
  | GenderChangeResolved (r : State) (newGender : string) (reply : MutationReply)
  (* the update of a list correction resolves, whatever the screen is by
     then *)
  | GenderUpdateResolved (userId : string) (newGender : GenderValue)
                         (reply : MutationReply).

Definition arrive (s : State) (a : Arrival) : option State :=
  match a with
  | at_once e => step s e
  | RefillResolved r reply =>
      if autoLoadDue r then Some (loadNextBatch r false reply s) else None
  | DecisionResolved r decision reply =>
      match mode r, currentUser r with
      | user_verification, Some _ => Some (handleDecision r decision reply s)
      | _, _ => None
      end
  | GenderSelectChanged =>
      match mode s, currentUser s with
      | user_verification, Some _ => Some (setGenderUpdateStatus saving s)
      | _, _ => None
      end
  | GenderChangeResolved r newGender reply =>
      match mode r, currentUser r with
      | user_verification, Some _ => Some (handleGenderChange r newGender reply s)
      | _, _ => None
      end
  | GenderUpdateResolved userId newGender reply =>
      let calls := handleGenderUpdate_calls userId newGender reply in
      Some (runEffects (givesNewGenderUsers calls) s (applyCalls calls s))
  end.

Fixpoint arrivals (s : State) (l : list Arrival) : option State :=
  match l with
  | [] => Some s
  | a :: l' =>
      match arrive s a with
      | Some s' => arrivals s' l'
      | None => None
      end
  end.

(** The state a run of events ends in. *)
Definition stateAfter (es : list Event) : State :=
  match run initState es with
  | Some s => s
  | None => initState
  end.

(** The identifiers an arrival removes by decision. *)
Definition decidedAt (s : State) (a : Arrival) : list string :=
  match a with
  | at_once e => decidedBy s e
  | DecisionResolved r _ _ =>
      match currentUser r with
      | Some cu => [pid cu]
      | None => []
      end
  | _ => []
  end.

Fixpoint decidedAlong (s : State) (l : list Arrival) : list string :=
  match l with
  | [] => []
  | a :: l' =>
      match arrive s a with
      | Some s' => decidedAt s a ++ decidedAlong s' l'
      | None => []
      end
  end.

Fixpoint same_ids (a b : list string) : bool :=
  match a, b with
  | [], [] => true
  | x :: a', y :: b' => String.eqb x y && same_ids a' b'
  | _, _ => false
  end.

(** An arrival fits the session: a fetched snapshot lists no identifier
    twice and none that was decided; a refill resolves while the queue is
    the first [k] entries of the snapshot it fetched, [k] being the queue
    length of the render that started it; the update of a decision
    resolves while the queue has the entries of the render in which the
    button was clicked. *)
Definition arrivalFits (s : State) (decided : list string) (a : Arrival) : bool :=
  match a with
  | at_once e => snapshotFits s decided e
  | RefillResolved r reply =>
      let users := ids (fst (fetched reply)) in
      nodupb users && disjointb decided users
      && same_ids (ids (queueUsers s)) (firstn (length (queueUsers r)) users)
  | DecisionResolved r _ _ => same_ids (ids (queueUsers r)) (ids (queueUsers s))
  | _ => true
  end.

Fixpoint arrivalsFit (s : State) (decided : list string) (l : list Arrival) : bool :=
  match l with
  | [] => true
  | a :: l' =>
      arrivalFits s decided a
      && match arrive s a with
         | Some s' => arrivalsFit s' (decided ++ decidedAt s a) l'
         | None => false
         end
  end.

(** The decisions of a list resolve one after the other, each clicked in
    the render the one before has left. *)
Fixpoint inTurn (s : State) (ds : list (State * Decision * MutationReply)) : Prop :=
  match ds with
  | [] => True
  | (r, d, reply) :: rest =>
      r = s
      /\ match arrive s (DecisionResolved r d reply) with
         | Some s' => inTurn s' rest
         | None => True
         end
  end.

Definition lateDecisions (ds : list (State * Decision * MutationReply))
  : list Arrival :=
  map (fun x => DecisionResolved (fst (fst x)) (snd (fst x)) (snd x)) ds.

(** The counts are JavaScript numbers: taking 1 from a count is exact up
    to this value. *)
Definition EXACT_LIMIT : Z := 2 ^ 53.

(** The 45-entry scenario with both refills in flight: the one started
    at 3 remaining entries and the one started at 2, each answered with
    the 27 entries 18..44 still pending. *)
Definition reviewed17 : State :=
  stateAfter ([InitialLoad (storeAnswers (sampleUsers 0 45)); ClickVerifyUsers]
              ++ approvals 17).

Definition twoRefillsInFlight : list Arrival :=
  map at_once ([InitialLoad (storeAnswers (sampleUsers 0 45)); ClickVerifyUsers]
               ++ approvals 18)
  ++ [RefillResolved (stateAfter
                        ([InitialLoad (storeAnswers (sampleUsers 0 45));
                          ClickVerifyUsers] ++ approvals 18))
                     (storeAnswers (sampleUsers 18 27));
      RefillResolved reviewed17 (storeAnswers (sampleUsers 18 27))].

(** The same scenario with one refill, started at 3 remaining entries and
    resolving, after the count of unknown genders has come in, with the
    28 entries 17..44. *)
Definition lateRefill : list Arrival :=
  map at_once ([InitialLoad (storeAnswers (sampleUsers 0 45)); ClickVerifyUsers]
               ++ approvals 17 ++ [UnknownCount (Some 4)])
  ++ [RefillResolved reviewed17 (storeAnswers (sampleUsers 17 28))].

(** The earlier page with entries 0 and 1 loaded and the review
    started. *)
Definition earlierPageReviewing : SimplePage.State :=
  let loaded := SimplePage.loadPendingUsers (storeAnswers (sampleUsers 0 2))
                                            SimplePage.initState in
  SimplePage.startVerification loaded loaded.

(** ** More of the page *)

(** What the review screen shows besides the entry: the text "No more
    users to verify" ([!currentUser]) and, inside the entry's block, the
    text "Loading more users...". *)
Definition showsNoMoreUsers (s : State) : bool :=
  mode_eqb (mode s) user_verification
  && match currentUser s with
     | Some _ => false
     | None => true
     end.

Definition showsLoadingMore (s : State) : bool :=
  mode_eqb (mode s) user_verification
  && match currentUser s with
     | Some _ => true
     | None => false
     end
  && (Z.of_nat (length (queueUsers s)) <=? LOAD_MORE_THRESHOLD)
  && hasMore s.

(** [email.split('@')[0]]: the text before the first ["@"]. *)
Fixpoint before_at (email : string) : string :=
  match email with
  | EmptyString => EmptyString
  | String c rest =>
      if Ascii.eqb c "@" then EmptyString else String c (before_at rest)
  end.

(** [a || b] for a [string | undefined] and a string. *)
Definition or_string (a : option string) (b : string) : string :=
  match a with
  | Some v => if String.eqb v EmptyString then b else v
  | None => b
  end.

(** The name of the greeting:
    [full_name || email?.split('@')[0] || 'Admin'], for the metadata
    name and the e-mail address of the signed-in user, either of which
    may be missing. *)
Definition adminNameOf (full_name email : option string) : string :=
  or_string full_name (or_string (option_map before_at email) "Admin").

(** The counts an event brings from the store are not negative. *)
Definition countsNonNegative (e : Event) : bool :=
  match e with
  | InitialLoad reply | Tick reply | AutoLoad reply =>
      0 <=? or_zero (q_count (pr_query reply))
  | UnknownCount count => 0 <=? or_zero count
  | _ => true
  end.

(** Review mode and the review screen go together, and the review
    screen has an entry to display. *)
Definition reviewInv (s : State) : Prop :=
  (isUserVerifying s = true <-> mode s = user_verification)
  /\ (mode s = user_verification -> currentUser s <> None).

(** A list of records is in the order of the sort direction: creation
    times do not decrease ([asc]) or do not increase ([desc]). *)
Definition inCreationOrder (o : SortOrder) (l : list User) : Prop :=
  Sorted.Sorted
    (fun a b => match o with
                | asc => created_at a <= created_at b
                | desc => created_at b <= created_at a
                end) l.

(** The records of a list created at a given instant, in list order. *)
Definition createdAt (t : Z) (l : list User) : list User :=
  filter (fun u => created_at u =? t) l.

(** The derived view is the one of the dataset, the filter and the sort
    direction. *)
Definition viewInSync (s : State) : Prop :=
  filteredGenderUsers s
  = derivedView (genderUsers s) (genderFilter s) (sortOrder s).

(** The page [p] of the gender screen in state [s]. *)
Definition pageAt (s : State) (p : nat) : list User :=
  paginatedUsers (setCurrentPage (Z.of_nat p) s).

(** No ["@"] occurs in a string. *)
Fixpoint no_at (s : string) : bool :=
  match s with
  | EmptyString => true
  | String c rest => negb (Ascii.eqb c "@") && no_at rest
  end.

(** [ImageWithLoader]: the image with its spinner and its failure text. *)
Module ImageWithLoader.

Record State : Type := mkState {
  isLoading : bool;
  hasError : bool
}.

Definition initState : State := mkState true false.

Inductive Event : Type :=
  | onLoad
  | onError.

Definition step (s : State) (e : Event) : State :=
  match e with
  | onLoad => mkState false (hasError s)
  | onError => mkState false true
  end.

Definition run (s : State) (es : list Event) : State := fold_left step es s.

(** The three parts of the rendering. *)
Definition showsSpinner (s : State) : bool := isLoading s && negb (hasError s).

Definition imageHidden (s : State) : bool := hasError s.

Definition showsFailure (s : State) : bool := hasError s.

Definition isError (e : Event) : bool :=
  match e with
  | onError => true
  | onLoad => false
  end.

End ImageWithLoader.

(** ** The login page *)

(** [src/app/login/page.tsx]: the page looks the signed-in user up in the
    table of administrators and, when a row comes back, replaces the
    location with the dashboard. *)
Module LoginPage.

(** The row [{ id }] the query on [admins] resolves with. *)
Record AdminRow : Type := mkAdminRow { admin_id : string }.

Record State : Type := mkState {
  location : string;
  alerts : list string
}.

Definition initState : State := mkState "/login" [].

(** [checkAdminAndRedirect], once the query has resolved with [data]. *)
Definition checkAdminAndRedirect (data : option AdminRow) (s : State) : State :=
  match data with
  | Some _ => mkState "/dashboard" (alerts s)
  | None => s
  end.

Inductive Event : Type :=
  (* [getSession()] resolves; [data] is what the query on [admins]
     resolves with when it is made *)
  | SessionResolved (session : option string) (data : option AdminRow)
  (* the listener of [onAuthStateChange] is called *)
  | AuthStateChange (event : string) (session : option string)
                    (data : option AdminRow)
  (* Google's button succeeds: [handleSuccess] signs in and does not
     navigate *)
  | GoogleSuccess (credential : string)
  (* Google's button fails *)
  | GoogleError.

Definition step (s : State) (e : Event) : State :=
  match e with
  | SessionResolved session data =>
      match session with
      | Some _ => checkAdminAndRedirect data s
      | None => s
      end
  | AuthStateChange event session data =>
      match session with
      | Some _ =>
          if String.eqb event "SIGNED_IN" then checkAdminAndRedirect data s
          else s
      | None => s
      end
  | GoogleSuccess _ => s
  | GoogleError => mkState (location s) (alerts s ++ ["Google login failed"%string])
  end.

Definition run (s : State) (es : list Event) : State := fold_left step es s.

(** The event makes the page look the user up and a row comes back. *)
Definition admits (e : Event) : bool :=
  match e with
  | SessionResolved (Some _) (Some _) => true
  | AuthStateChange event (Some _) (Some _) => String.eqb event "SIGNED_IN"
  | _ => false
  end.

End LoginPage.

(** * Properties *)

(** ** Helpers *)

Lemma js_slice_from (A : Type) (l : list A) (k : nat) (n : nat) :
  js_slice l (Z.of_nat k) (Z.of_nat k + Z.of_nat n) = firstn n (skipn k l).
Proof.
  unfold js_slice.
  destruct (Z.ltb_spec (Z.of_nat k) 0) as [Hneg|_]; [lia|].
  destruct (Z.ltb_spec (Z.of_nat k + Z.of_nat n) 0) as [Hneg|_]; [lia|].
  destruct (Nat.le_gt_cases k (length l)) as [Hk|Hk].
  - replace (Z.to_nat (Z.min (Z.of_nat k) (Z.of_nat (length l)))) with k by lia.
    destruct (Nat.le_gt_cases n (length l - k)) as [Hn|Hn].
    + f_equal. lia.
    + rewrite !firstn_all2; trivial; rewrite length_skipn; lia.
  - rewrite (skipn_all2 l (n := k)) by lia.
    rewrite firstn_nil.
    replace (Z.to_nat (Z.min (Z.of_nat k + Z.of_nat n) (Z.of_nat (length l))
                       - Z.min (Z.of_nat k) (Z.of_nat (length l)))) with 0%nat by lia.
    reflexivity.
Qed.

Lemma js_slice_batch (A : Type) (l : list A) (k : nat) :
  js_slice l (Z.of_nat k) (Z.of_nat k + PAGE_SIZE) = firstn 20 (skipn k l).
Proof. exact (js_slice_from A l k 20). Qed.

Lemma js_slice_first_batch (A : Type) (l : list A) :
  js_slice l 0 PAGE_SIZE = firstn 20 l.
Proof. exact (js_slice_from A l 0 20). Qed.

(** [ceil_div] is the ceiling of the quotient. *)
Lemma ceil_div_spec (a b q : Z) :
  0 < b -> (ceil_div a b = q <-> b * (q - 1) < a <= b * q).
Proof.
  intros Hb. unfold ceil_div. split.
  - intros <-.
    pose proof (Z.mul_div_le (- a) b Hb).
    pose proof (Z.mul_succ_div_gt (- a) b Hb). lia.
  - intros [Hlo Hhi].
    assert (- a / b = - q) as ->; [|lia].
    symmetry. apply Z.div_unique with (r := q * b - a); lia.
Qed.

Lemma sort_insert_perm (A : Type) (cmp : A -> A -> Z) (x : A) (l : list A) :
  Permutation (sort_insert cmp x l) (x :: l).
Proof.
  induction l as [|y ys IH]; simpl.
  - apply Permutation_refl.
  - destruct (cmp x y <=? 0).
    + apply Permutation_refl.
    + apply Permutation_trans with (y :: x :: ys).
      * apply perm_skip, IH.
      * apply perm_swap.
Qed.

Lemma js_sort_perm (A : Type) (cmp : A -> A -> Z) (l : list A) :
  Permutation (js_sort cmp l) l.
Proof.
  induction l as [|x xs IH]; simpl.
  - apply perm_nil.
  - apply Permutation_trans with (x :: js_sort cmp xs).
    + apply sort_insert_perm.
    + apply perm_skip, IH.
Qed.

(** The sort stage orders the view by creation time. *)
Lemma sort_insert_sorted (o : SortOrder) (x : User) (l : list User) :
  Sorted.Sorted (fun a b => compareCreated o a b <= 0) l ->
  Sorted.Sorted (fun a b => compareCreated o a b <= 0)
                (sort_insert (compareCreated o) x l).
Proof.
  induction l as [|y ys IH]; simpl; intros Hs.
  - repeat constructor.
  - destruct (Z.leb_spec (compareCreated o x y) 0) as [Hle|Hgt].
    + constructor; [exact Hs | constructor; exact Hle].
    + inversion Hs as [|? ? Hys Hhd]; subst.
      constructor; [apply IH, Hys|].
      destruct ys as [|z zs]; simpl.
      * constructor. destruct o; unfold compareCreated in *; lia.
      * destruct (compareCreated o x z <=? 0).
        -- constructor. destruct o; unfold compareCreated in *; lia.
        -- inversion Hhd; subst. constructor. assumption.
Qed.

Lemma js_sort_sorted (o : SortOrder) (l : list User) :
  Sorted.Sorted (fun a b => compareCreated o a b <= 0)
                (js_sort (compareCreated o) l).
Proof.
  induction l as [|x xs IH]; simpl.
  - constructor.
  - apply sort_insert_sorted, IH.
Qed.

(** ** Decisions *)

Lemma filter_other_ids (x : string) (q : list PendingUser) :
  ~ In x (ids (filter (fun u => negb (String.eqb (pid u) x)) q)).
Proof.
  unfold ids. rewrite in_map_iff. intros [u [Hid Hin]].
  apply filter_In in Hin. destruct Hin as [_ Hne].
  rewrite Hid, String.eqb_refl in Hne. discriminate.
Qed.

(** The callback of [handleDecision] never looks at what the update
    resolved with. *)
Lemma handleDecision_any_reply (r s : State) (decision : Decision)
  (reply reply' : MutationReply) :
  handleDecision r decision reply s = handleDecision r decision reply' s.
Proof. reflexivity. Qed.

(** What a decision does to the queue and to the snapshot. *)
Lemma handleDecision_queue (r s : State) (d : Decision) (reply : MutationReply)
  (cu : PendingUser) :
  currentUser r = Some cu ->
  queueUsers (handleDecision r d reply s)
  = filter (fun u => negb (String.eqb (pid u) (pid cu))) (queueUsers r)
  /\ allPendingUsers (handleDecision r d reply s) = allPendingUsers s.
Proof.
  intros Hcu. unfold handleDecision. rewrite Hcu.
  match goal with |- context [if ?c then _ else _] => destruct c end;
    split; reflexivity.
Qed.




(** C3 (the code departs from it): an update that resolves with an error
    runs the same callback as a confirmed one.  After two entries are
    loaded and the review is started, a decision whose update fails
    removes the displayed entry from the queue, lowers the total-pending
    count from 2 to 1, displays the next entry and writes nothing to the
    console. *)
Theorem handleDecision_failed_write_changes_state :
  exists s s',
    twoLoadedReviewing = Some s
    /\ step s (ClickDecision dec_verified (Some "permission denied"%string)) = Some s'
    /\ ids (queueUsers s) = [sampleId 0; sampleId 1]
    /\ totalPending s = 2
    /\ option_map pid (currentUser s) = Some (sampleId 0)
    /\ ids (queueUsers s') = [sampleId 1]
    /\ totalPending s' = 1
    /\ option_map pid (currentUser s') = Some (sampleId 1)
    /\ console s' = console s.
Proof.
  eexists. eexists.
  split; [vm_compute; reflexivity|].
  split; [vm_compute; reflexivity|].
  repeat split.
Qed.

(** ** The gender-review list *)

(** A successful [handleGenderUpdate] patches the dataset in place:
    same length, same order, a record with another identifier untouched,
    a record with the identifier given the new gender and nothing else. *)
Lemma handleGenderUpdate_patches_in_place (userId : string) (g : GenderValue)
  (s : State) :
  let s' := handleGenderUpdate userId g None s in
  length (genderUsers s') = length (genderUsers s)
  /\ forall i u,
       nth_error (genderUsers s) i = Some u ->
       nth_error (genderUsers s') i
       = Some (if String.eqb (id u) userId
               then with_gender (gender_string g) u else u).
Proof.
  simpl. split.
  - apply length_map.
  - intros i u Hu. rewrite nth_error_map, Hu. reflexivity.
Qed.

(** With unique identifiers at most one record is patched. *)
Lemma handleGenderUpdate_single_record (userId : string) (g : GenderValue)
  (s : State) (i j : nat) (u v : User) :
  NoDup (map id (genderUsers s)) ->
  nth_error (genderUsers s) i = Some u ->
  nth_error (genderUsers s) j = Some v ->
  id u = userId -> id v = userId -> i = j.
Proof.
  intros Hnd Hi Hj Hu Hv.
  apply (proj1 (NoDup_nth_error (map id (genderUsers s))) Hnd).
  - rewrite length_map. apply nth_error_Some. congruence.
  - rewrite !nth_error_map, Hi, Hj. simpl. congruence.
Qed.

(** The unknown-gender count is lowered by every successful update. *)
Lemma handleGenderUpdate_always_decrements (userId : string) (g : GenderValue)
  (s : State) :
  totalUnknown (handleGenderUpdate userId g None s)
  = Z.max 0 (totalUnknown s - 1).
Proof. reflexivity. Qed.

(** A failed update only writes to the console. *)
Lemma handleGenderUpdate_failed (userId : string) (g : GenderValue)
  (e : string) (s : State) :
  handleGenderUpdate userId g (Some e) s
  = console_error "Error updating gender:" e s.
Proof. reflexivity. Qed.

(** C7 (the code departs from it): correcting a record that already has
    a gender lowers the unknown-gender count all the same.  With one
    [Male] record, one record without a gender and a count of 1, changing
    the first record to [Female] patches that record alone and brings the
    count to 0, while one record still has no gender. *)
Theorem handleGenderUpdate_decrements_for_known_gender :
  exists s s',
    oneKnownOneUnknown = Some s
    /\ step s (ClickGender (sampleId 0) Female None) = Some s'
    /\ map gender (genderUsers s) = [Some "Male"%string; None]
    /\ totalUnknown s = 1
    /\ map gender (genderUsers s') = [Some "Female"%string; None]
    /\ map id (genderUsers s') = map id (genderUsers s)
    /\ totalUnknown s' = 0.
Proof.
  eexists. eexists.
  split; [vm_compute; reflexivity|].
  split; [vm_compute; reflexivity|].
  repeat split.
Qed.

(** C10: a successful gender update from the list, resolving at once or
    after the screen has moved on, calls [setGenderUsers] with the mapped
    array, a new array; so the derived-view effect runs and the page is 1
    again, whatever page was displayed; the view is recomputed from the
    patched dataset. *)
Theorem gender_update_resets_page :
  forall (s s' : State) (userId : string) (g : GenderValue),
    step s (ClickGender userId g None) = Some s'
    \/ arrive s (GenderUpdateResolved userId g None) = Some s' ->
    givesNewGenderUsers (handleGenderUpdate_calls userId g None) = true
    /\ currentPage s' = 1
    /\ genderUsers s' = genderUsers (handleGenderUpdate userId g None s)
    /\ filteredGenderUsers s'
       = derivedView (genderUsers s') (genderFilter s) (sortOrder s).
Proof.
  intros s s' userId g Hstep.
  assert (Hs' : s' = runEffects
                       (givesNewGenderUsers (handleGenderUpdate_calls userId g None))
                       s (handleGenderUpdate userId g None s)).
  { destruct Hstep as [Hstep|Hstep]; simpl in Hstep.
    - destruct (mode_eqb (mode s) gender_verification
                && existsb (fun u => String.eqb (id u) userId) (paginatedUsers s));
        [|discriminate].
      injection Hstep as <-. reflexivity.
    - injection Hstep as <-. reflexivity. }
  subst s'. split; [reflexivity|].
  unfold runEffects, modeEffect. cbn.
  destruct (mode s); cbn; auto.
Qed.

Lemma gender_update_resets_page_witness :
  exists s s',
    secondPage = Some s
    /\ currentPage s = 2
    /\ step s (ClickGender (sampleId 22) Male None) = Some s'
    /\ currentPage s' = 1.
Proof.
  destruct (run initState
              [ClickVerifyGenders; AllUsersLoaded (Some (sampleUsers 0 25));
               ClickNext]) as [s|] eqn:Hs; [|vm_compute in Hs; discriminate].
  destruct (step s (ClickGender (sampleId 22) Male None)) as [s'|] eqn:Hs'.
  - exists s, s'.
    split; [exact Hs|].
    split; [vm_compute in Hs; injection Hs as <-; reflexivity|].
    split; [exact Hs'|].
    exact (proj1 (proj2 (gender_update_resets_page s s' (sampleId 22) Male
                           (or_introl Hs')))).
  - vm_compute in Hs. injection Hs as <-. vm_compute in Hs'. discriminate.
Defined.

(** A failed update calls no setter of the list: no effect runs, and the
    page, the dataset and the view stay as they are. *)
Lemma failed_gender_update_keeps_page (s s' : State) (userId : string)
  (g : GenderValue) (e : string) :
  step s (ClickGender userId g (Some e)) = Some s'
  \/ arrive s (GenderUpdateResolved userId g (Some e)) = Some s' ->
  givesNewGenderUsers (handleGenderUpdate_calls userId g (Some e)) = false
  /\ currentPage s' = currentPage s
  /\ genderUsers s' = genderUsers s
  /\ filteredGenderUsers s' = filteredGenderUsers s.
Proof.
  intros Hstep.
  assert (Hs' : s' = runEffects false s (handleGenderUpdate userId g (Some e) s)).
  { destruct Hstep as [Hstep|Hstep]; simpl in Hstep.
    - destruct (mode_eqb (mode s) gender_verification
                && existsb (fun u => String.eqb (id u) userId) (paginatedUsers s));
        [|discriminate].
      injection Hstep as <-. reflexivity.
    - injection Hstep as <-. reflexivity. }
  subst s'. split; [reflexivity|].
  unfold runEffects, modeEffect. cbn.
  destruct (mode s); cbn; destruct (genderFilter s) as [| |[|]]; cbn;
    destruct (sortOrder s); cbn; auto.
Qed.

Lemma truthy_false_iff (v : option string) :
  negb (truthy v) = true <-> v = None \/ v = Some EmptyString.
Proof.
  destruct v as [g|]; simpl.
  - rewrite negb_involutive, String.eqb_eq. split.
    + intros ->. now right.
    + intros [H|H]; congruence.
  - split; auto.
Qed.

Lemma gender_is_iff (u : User) (v : string) :
  gender_is u v = true <-> gender u = Some v.
Proof.
  unfold gender_is. destruct (gender u) as [g|].
  - rewrite String.eqb_eq. split; congruence.
  - split; discriminate.
Qed.

(** C9: on every dataset the "unknown" filter keeps exactly the records
    without a gender, the filter of a named gender keeps exactly the
    records whose gender is that value, and the "all" filter keeps the
    dataset as it is; the derived view is the kept records, reordered by
    the sort. *)
Theorem gender_filter_semantics :
  forall (l : list User) (o : SortOrder),
    exactly_those gender_unset l (applyGenderFilter f_unknown l)
    /\ (forall g : GenderValue,
          exactly_those (fun u => gender u = Some (gender_string g)) l
                        (applyGenderFilter (f_named g) l))
    /\ applyGenderFilter f_all l = l
    /\ (forall f : GenderFilter,
          Permutation (derivedView l f o) (applyGenderFilter f l)).
Proof.
  intros l o. split; [|split; [|split]].
  - exists (matchesFilter f_unknown). split; [|reflexivity].
    intros u. apply truthy_false_iff.
  - intros g. exists (matchesFilter (f_named g)). split; [|reflexivity].
    intros u. apply gender_is_iff.
  - reflexivity.
  - intros f. apply js_sort_perm.
Qed.

(** ** Pagination of the gender-review list *)

Lemma run_reachable_from (es : list Event) :
  forall s s', reachable s -> run s es = Some s' -> reachable s'.
Proof.
  induction es as [|e es IH]; simpl; intros s s' Hs Hrun.
  - injection Hrun as <-. exact Hs.
  - destruct (step s e) as [s1|] eqn:Hstep; [|discriminate].
    apply (IH s1 s'); [|exact Hrun].
    apply (reach_step s e s1 Hs Hstep).
Qed.

Lemma run_reachable (es : list Event) (s : State) :
  run initState es = Some s -> reachable s.
Proof. apply run_reachable_from, reach_init. Qed.

Lemma filter_eqb_eq (a b : GenderFilter) : filter_eqb a b = true <-> a = b.
Proof.
  destruct a as [| |[|]], b as [| |[|]]; simpl; split;
    congruence || reflexivity.
Qed.

Lemma sort_eqb_eq (a b : SortOrder) : sort_eqb a b = true <-> a = b.
Proof. destruct a, b; simpl; split; congruence || reflexivity. Qed.

Lemma totalPages_nonneg (s : State) : 0 <= totalPages s.
Proof.
  unfold totalPages, ceil_div, PAGE_SIZE.
  assert (- Z.of_nat (length (filteredGenderUsers s)) / 20 <= 0); [|lia].
  apply Z.div_le_upper_bound; lia.
Qed.

Lemma totalPages_empty (s : State) :
  filteredGenderUsers s = [] -> totalPages s = 0.
Proof. unfold totalPages. intros ->. reflexivity. Qed.

Lemma totalPages_nonempty (s : State) :
  filteredGenderUsers s <> [] -> 1 <= totalPages s.
Proof.
  unfold totalPages, ceil_div, PAGE_SIZE. intros Hne.
  destruct (filteredGenderUsers s) as [|u l]; [congruence|].
  assert (- Z.of_nat (length (u :: l)) / 20 < 0); [|lia].
  apply Z.div_lt_upper_bound; simpl length; lia.
Qed.

Lemma pageInRange_same (s s' : State) :
  currentPage s' = currentPage s ->
  filteredGenderUsers s' = filteredGenderUsers s ->
  pageInRange s -> pageInRange s'.
Proof.
  unfold pageInRange, totalPages. intros -> ->. trivial.
Qed.

Lemma pageInRange_first (s : State) : currentPage s = 1 -> pageInRange s.
Proof. unfold pageInRange. intros ->. lia. Qed.

Lemma loadNextBatch_gender_frame (r s : State) (b : bool) (reply : PendingReply) :
  currentPage (loadNextBatch r b reply s) = currentPage s
  /\ filteredGenderUsers (loadNextBatch r b reply s) = filteredGenderUsers s.
Proof.
  unfold loadNextBatch, fetchPendingUsers.
  destruct (q_error (pr_query reply)), b, (isUserVerifying r); split; reflexivity.
Qed.

Lemma handleDecision_gender_frame (r s : State) (d : Decision) (reply : MutationReply) :
  currentPage (handleDecision r d reply s) = currentPage s
  /\ filteredGenderUsers (handleDecision r d reply s) = filteredGenderUsers s.
Proof.
  unfold handleDecision.
  destruct (currentUser r); [|split; reflexivity].
  match goal with |- context [if ?c then _ else _] => destruct c end;
    split; reflexivity.
Qed.

Lemma runEffects_page (b : bool) (prev next : State) :
  currentPage (runEffects b prev next) = 1
  \/ (currentPage (runEffects b prev next) = currentPage next
      /\ filteredGenderUsers (runEffects b prev next) = filteredGenderUsers next).
Proof.
  unfold runEffects, modeEffect.
  destruct (mode_eqb (mode prev) (mode next)); [|destruct (mode next)]; cbn;
    destruct (b || negb (filter_eqb (genderFilter prev) (genderFilter next))
              || negb (sort_eqb (sortOrder prev) (sortOrder next)));
    cbn; auto.
Qed.

Lemma runEffects_pageInRange (b : bool) (prev next : State) :
  pageInRange next -> pageInRange (runEffects b prev next).
Proof.
  intros Hnext. destruct (runEffects_page b prev next) as [H1|[Hp Hf]].
  - apply pageInRange_first, H1.
  - apply (pageInRange_same next); assumption.
Qed.

(** Every event keeps the displayed page in range. *)
Lemma step_pageInRange (s s' : State) (e : Event) :
  step s e = Some s' -> pageInRange s -> pageInRange s'.
Proof.
  intros Hstep Hinv.
  destruct e; simpl in Hstep.
  - injection Hstep as <-.
    apply (pageInRange_same s); trivial; apply loadNextBatch_gender_frame.
  - injection Hstep as <-.
    apply (pageInRange_same s); trivial; apply loadNextBatch_gender_frame.
  - injection Hstep as <-. exact Hinv.
  - destruct (autoLoadDue s); [|discriminate]. injection Hstep as <-.
    apply (pageInRange_same s); trivial; apply loadNextBatch_gender_frame.
  - destruct (mode_eqb (mode s) dashboard && negb (length (queueUsers s) =? 0)%nat);
      [|discriminate].
    injection Hstep as <-. unfold startVerification.
    destruct (length (queueUsers s) =? 0)%nat; exact Hinv.
  - destruct (mode_eqb (mode s) dashboard); [|discriminate].
    injection Hstep as <-. apply runEffects_pageInRange. exact Hinv.
  - destruct (mode s); [discriminate| |]; injection Hstep as <-; exact Hinv.
  - destruct (mode s); try discriminate.
    destruct (currentUser s); [|discriminate]. injection Hstep as <-.
    apply (pageInRange_same s); trivial; apply handleDecision_gender_frame.
  - destruct (mode s); try discriminate.
    destruct (currentUser s) as [cu|] eqn:Hcu; [|discriminate].
    injection Hstep as <-. unfold handleGenderChange. rewrite Hcu.
    destruct reply; exact Hinv.
  - injection Hstep as <-. exact Hinv.
  - injection Hstep as <-. apply runEffects_pageInRange. exact Hinv.
  - destruct (mode_eqb (mode s) gender_verification); [|discriminate].
    injection Hstep as <-. apply runEffects_pageInRange. exact Hinv.
  - destruct (mode_eqb (mode s) gender_verification); [|discriminate].
    injection Hstep as <-. apply runEffects_pageInRange. exact Hinv.
  - destruct (mode_eqb (mode s) gender_verification && (0 <? totalPages s)
              && negb (currentPage s =? 1)); [|discriminate].
    injection Hstep as <-. unfold pageInRange, previousPage in *.
    change (totalPages (setCurrentPage (Z.max 1 (currentPage s - 1)) s))
      with (totalPages s).
    cbn [currentPage setCurrentPage]. lia.
  - destruct (mode_eqb (mode s) gender_verification) ; [|discriminate].
    destruct (Z.ltb_spec 0 (totalPages s)) as [Hpos|]; [|discriminate].
    destruct (negb (currentPage s =? totalPages s)); [|discriminate].
    injection Hstep as <-. unfold pageInRange, nextPage in *.
    change (totalPages (setCurrentPage (Z.min (totalPages s) (currentPage s + 1)) s))
      with (totalPages s).
    cbn [currentPage setCurrentPage]. lia.
  - destruct (mode_eqb (mode s) gender_verification
              && existsb (fun u => String.eqb (id u) userId) (paginatedUsers s));
      [|discriminate].
    destruct reply as [err|]; injection Hstep as <-;
      apply runEffects_pageInRange; exact Hinv.
Qed.

Lemma reachable_pageInRange (s : State) : reachable s -> pageInRange s.
Proof.
  induction 1 as [|s e s' _ IH Hstep].
  - unfold pageInRange. vm_compute. split; discriminate.
  - apply (step_pageInRange s s' e Hstep IH).
Qed.

(** C8 fails as stated: on the gender screen, when no record matches
    the filter, the derived view is empty, the displayed page is 1 and
    [ceil(0 / 20)] is 0. *)
Lemma page_exceeds_page_count_on_empty_view :
  exists s,
    emptyGenderScreen = Some s
    /\ reachable s
    /\ mode s = gender_verification
    /\ filteredGenderUsers s = []
    /\ currentPage s = 1
    /\ ceil_div (Z.of_nat (length (filteredGenderUsers s))) PAGE_SIZE = 0
    /\ ~ currentPage s <= ceil_div (Z.of_nat (length (filteredGenderUsers s))) PAGE_SIZE.
Proof.
  eexists. split; [vm_compute; reflexivity|].
  split.
  - apply (run_reachable
             [ClickVerifyGenders; AllUsersLoaded (Some (sampleUsers 0 25));
              SelectFilter (f_named Male)]).
    vm_compute. reflexivity.
  - repeat split. vm_compute. intros H. apply H. reflexivity.
Qed.

(** C8, amended: in every reachable state a change of the filter or of
    the sort direction brings the page back to 1; the displayed page is
    at least 1; it does not exceed [ceil(length / 20)] whenever the
    derived view is not empty; with an empty derived view it is 1 while
    the number of pages is 0. *)
Theorem page_reset_and_bounds :
  forall s : State,
    reachable s ->
    (forall f s', f <> genderFilter s ->
                  step s (SelectFilter f) = Some s' -> currentPage s' = 1)
    /\ (forall o s', o <> sortOrder s ->
                     step s (SelectSort o) = Some s' -> currentPage s' = 1)
    /\ 1 <= currentPage s
    /\ (filteredGenderUsers s <> [] ->
        currentPage s
        <= ceil_div (Z.of_nat (length (filteredGenderUsers s))) PAGE_SIZE)
    /\ (filteredGenderUsers s = [] ->
        currentPage s = 1
        /\ ceil_div (Z.of_nat (length (filteredGenderUsers s))) PAGE_SIZE = 0).
Proof.
  intros s Hreach.
  pose proof (reachable_pageInRange s Hreach) as [Hlo Hhi].
  fold (totalPages s).
  split; [|split; [|split; [|split]]].
  - intros f s' Hf Hstep. simpl in Hstep.
    destruct (mode_eqb (mode s) gender_verification); [|discriminate].
    injection Hstep as <-. unfold runEffects.
    replace (mode_eqb (mode s) (mode (setGenderFilter f s))) with true
      by (cbn; destruct (mode s); reflexivity).
    cbn [orb genderFilter setGenderFilter].
    destruct (filter_eqb (genderFilter s) f) eqn:Heq.
    + apply filter_eqb_eq in Heq. congruence.
    + reflexivity.
  - intros o s' Ho Hstep. simpl in Hstep.
    destruct (mode_eqb (mode s) gender_verification); [|discriminate].
    injection Hstep as <-. unfold runEffects.
    replace (mode_eqb (mode s) (mode (setSortOrder o s))) with true
      by (cbn; destruct (mode s); reflexivity).
    cbn [orb genderFilter sortOrder setSortOrder].
    destruct (sort_eqb (sortOrder s) o) eqn:Heq.
    + apply sort_eqb_eq in Heq. congruence.
    + destruct (negb (filter_eqb (genderFilter s) (genderFilter s))); reflexivity.
  - exact Hlo.
  - intros Hne. pose proof (totalPages_nonempty s Hne). lia.
  - intros Hnil. pose proof (totalPages_empty s Hnil). lia.
Qed.

Lemma page_reset_and_bounds_witness :
  exists s s',
    secondPage = Some s
    /\ reachable s
    /\ filteredGenderUsers s <> []
    /\ currentPage s = 2
    /\ currentPage s <= ceil_div (Z.of_nat (length (filteredGenderUsers s))) PAGE_SIZE
    /\ f_unknown <> genderFilter s
    /\ step s (SelectFilter f_unknown) = Some s'
    /\ currentPage s' = 1.
Proof.
  destruct (run initState
              [ClickVerifyGenders; AllUsersLoaded (Some (sampleUsers 0 25));
               ClickNext]) as [s|] eqn:Hs; [|vm_compute in Hs; discriminate].
  assert (Hreach : reachable s) by exact (run_reachable _ s Hs).
  assert (Hne : filteredGenderUsers s <> [])
    by (vm_compute in Hs; injection Hs as <-; discriminate).
  assert (Hf : f_unknown <> genderFilter s)
    by (vm_compute in Hs; injection Hs as <-; discriminate).
  destruct (step s (SelectFilter f_unknown)) as [s'|] eqn:Hs'.
  - destruct (page_reset_and_bounds s Hreach) as [Hfilter [_ [_ [Hhi _]]]].
    exists s, s'.
    split; [exact Hs|].
    split; [exact Hreach|].
    split; [exact Hne|].
    split; [vm_compute in Hs; injection Hs as <-; reflexivity|].
    split; [exact (Hhi Hne)|].
    split; [exact Hf|].
    split; [exact Hs'|].
    exact (Hfilter f_unknown s' Hf Hs').
  - vm_compute in Hs. injection Hs as <-. vm_compute in Hs'. discriminate.
Defined.

(** ** The queue: loading, refresh and refill *)

Lemma fetched_failed (reply : PendingReply) (e : string) :
  q_error (pr_query reply) = Some e -> fetched reply = ([], 0).
Proof. unfold fetched, fetchPendingUsers. intros ->. reflexivity. Qed.

Lemma fetched_storeAnswers (l : list User) :
  fetched (storeAnswers l)
  = (map (fun u => mkPendingUser u []) l, Z.of_nat (length l)).
Proof. reflexivity. Qed.

(** A refresh run by a closure that sees review mode off replaces the
    queue with the first batch of the fetched snapshot. *)
Lemma loadNextBatch_refresh_replaces (r s : State) (reply : PendingReply) :
  isUserVerifying r = false ->
  let s' := loadNextBatch r true reply s in
  queueUsers s' = firstn 20 (fst (fetched reply))
  /\ allPendingUsers s' = fst (fetched reply)
  /\ totalPending s' = snd (fetched reply)
  /\ hasMore s' = (20 <? Z.of_nat (length (fst (fetched reply)))).
Proof.
  intros Hr. unfold loadNextBatch, fetched, fetchPendingUsers. rewrite Hr.
  destruct (q_error (pr_query reply)); cbn -[js_slice Z.ltb firstn];
    rewrite ?js_slice_first_batch; auto.
Qed.

(** A refresh run by a closure that sees review mode on leaves the queue
    alone and still stores the snapshot and the count. *)
Lemma loadNextBatch_refresh_keeps (r s : State) (reply : PendingReply) :
  isUserVerifying r = true ->
  let s' := loadNextBatch r true reply s in
  queueUsers s' = queueUsers s
  /\ hasMore s' = hasMore s
  /\ currentUser s' = currentUser s
  /\ allPendingUsers s' = fst (fetched reply)
  /\ totalPending s' = snd (fetched reply).
Proof.
  intros Hr. unfold loadNextBatch, fetched, fetchPendingUsers. rewrite Hr.
  destruct (q_error (pr_query reply)); cbn; auto.
Qed.

(** An append adds the batch found at the offset of the closure's queue
    length to the current queue. *)
Lemma loadNextBatch_append (r s : State) (reply : PendingReply) :
  let s' := loadNextBatch r false reply s in
  let batch := firstn 20 (skipn (length (queueUsers r)) (fst (fetched reply))) in
  queueUsers s' = queueUsers s ++ batch
  /\ allPendingUsers s' = fst (fetched reply)
  /\ totalPending s' = snd (fetched reply)
  /\ hasMore s'
     = (Z.of_nat (length (queueUsers r)) + Z.of_nat (length batch)
        <? Z.of_nat (length (fst (fetched reply)))).
Proof.
  unfold loadNextBatch, fetched, fetchPendingUsers.
  destruct (q_error (pr_query reply)); cbn -[js_slice Z.ltb firstn skipn Z.add Z.of_nat];
    rewrite ?js_slice_batch; auto.
Qed.

(** The interval callback belongs to the first render, where review mode
    is off: every tick replaces the queue. *)
Lemma tick_replaces_queue (s s' : State) (reply : PendingReply) :
  step s (Tick reply) = Some s' ->
  queueUsers s' = firstn 20 (fst (fetched reply))
  /\ allPendingUsers s' = fst (fetched reply)
  /\ totalPending s' = snd (fetched reply)
  /\ hasMore s' = (20 <? Z.of_nat (length (fst (fetched reply)))).
Proof.
  simpl. intros Hstep. injection Hstep as <-.
  apply loadNextBatch_refresh_replaces. reflexivity.
Qed.

(** C2 (the code departs from it): a periodic refresh during a review
    replaces the queue.  With entries 1 and 2 under review, a tick whose
    snapshot holds the newer entry 0 as well turns the queue into entries
    0, 1, 2 while the review goes on with entry 1 displayed. *)
Theorem refresh_tick_while_reviewing_replaces_queue :
  exists s s',
    reviewingTwo = Some s
    /\ step s (Tick (storeAnswers (sampleUsers 0 3))) = Some s'
    /\ isUserVerifying s = true
    /\ ids (queueUsers s) = [sampleId 1; sampleId 2]
    /\ isUserVerifying s' = true
    /\ option_map pid (currentUser s') = Some (sampleId 1)
    /\ ids (queueUsers s') = [sampleId 0; sampleId 1; sampleId 2]
    /\ ids (queueUsers s') <> ids (queueUsers s).
Proof.
  eexists. eexists.
  split; [vm_compute; reflexivity|].
  split; [vm_compute; reflexivity|].
  repeat split. discriminate.
Qed.

(** C5 fails as stated: a refresh whose fetch fails, with the operator
    not reviewing, empties a queue that held two entries. *)
Lemma failed_refresh_clears_queue :
  exists s s',
    loadedTwo = Some s
    /\ step s (Tick (storeFails "timeout")) = Some s'
    /\ isUserVerifying s = false
    /\ ids (queueUsers s) = [sampleId 0; sampleId 1]
    /\ queueUsers s' = []
    /\ totalPending s' = 0.
Proof.
  eexists. eexists.
  split; [vm_compute; reflexivity|].
  split; [vm_compute; reflexivity|].
  repeat split.
Qed.

(** C5, amended: every refresh whose fetch fails writes the error to the
    console and takes the result to be empty: the total-pending count is
    0 and the snapshot is empty; and when the operator is not reviewing,
    the queue is replaced by the empty first batch and [hasMore] is
    off.  On the earlier page, which keeps no count, every load whose
    fetch fails writes the error to the console and empties the list,
    and leaves the displayed entry and review mode as they are. *)
Theorem failed_refresh_treated_as_empty :
  (forall (s s' : State) (reply : PendingReply) (e : string),
      q_error (pr_query reply) = Some e ->
      step s (Tick reply) = Some s' ->
      console s' = console s ++ [("Error loading pending users:"%string, e)]
      /\ totalPending s' = 0
      /\ allPendingUsers s' = []
      /\ (isUserVerifying s = false ->
          queueUsers s' = [] /\ hasMore s' = false))
  /\ (forall (s : SimplePage.State) (reply : PendingReply) (e : string),
        q_error (pr_query reply) = Some e ->
        let s' := SimplePage.loadPendingUsers reply s in
        SimplePage.console s'
        = SimplePage.console s ++ [("Error loading pending users:"%string, e)]
        /\ SimplePage.pendingUsers s' = []
        /\ SimplePage.currentUser s' = SimplePage.currentUser s
        /\ SimplePage.isVerifying s' = SimplePage.isVerifying s).
Proof.
  split.
  - intros s s' reply e Herr Hstep.
    destruct (tick_replaces_queue s s' reply Hstep) as [Hq [Ha [Ht Hm]]].
    rewrite (fetched_failed reply e Herr) in Hq, Ha, Ht, Hm.
    split.
    + simpl in Hstep. injection Hstep as <-.
      unfold loadNextBatch, fetchPendingUsers. rewrite Herr. reflexivity.
    + auto.
  - intros s reply e Herr s'. subst s'.
    unfold SimplePage.loadPendingUsers. rewrite Herr. cbn. auto.
Qed.

Lemma failed_refresh_treated_as_empty_witness :
  (exists s s',
      loadedTwo = Some s
      /\ step s (Tick (storeFails "timeout")) = Some s'
      /\ isUserVerifying s = false
      /\ totalPending s = 2
      /\ totalPending s' = 0
      /\ allPendingUsers s' = []
      /\ queueUsers s' = []
      /\ console s' = [("Error loading pending users:"%string, "timeout"%string)])
  /\ (length (SimplePage.pendingUsers earlierPageReviewing) = 2%nat
      /\ SimplePage.pendingUsers
           (SimplePage.loadPendingUsers (storeFails "timeout") earlierPageReviewing)
         = []
      /\ SimplePage.console
           (SimplePage.loadPendingUsers (storeFails "timeout") earlierPageReviewing)
         = [("Error loading pending users:"%string, "timeout"%string)]).
Proof.
  destruct failed_refresh_treated_as_empty as [Hmain Hearlier].
  split.
  - destruct (run initState [InitialLoad (storeAnswers (sampleUsers 0 2))])
      as [s|] eqn:Hs; [|vm_compute in Hs; discriminate].
    assert (Hv : isUserVerifying s = false)
      by (vm_compute in Hs; injection Hs as <-; reflexivity).
    assert (Hc : console s = [])
      by (vm_compute in Hs; injection Hs as <-; reflexivity).
    destruct (step s (Tick (storeFails "timeout"))) as [s'|] eqn:Hs';
      [|simpl in Hs'; discriminate].
    destruct (Hmain s s' (storeFails "timeout") "timeout"%string eq_refl Hs')
      as [Hlog [Ht [Ha Hclear]]].
    destruct (Hclear Hv) as [Hq _].
    exists s, s'.
    split; [exact Hs|].
    split; [exact Hs'|].
    split; [exact Hv|].
    split; [vm_compute in Hs; injection Hs as <-; reflexivity|].
    split; [exact Ht|].
    split; [exact Ha|].
    split; [exact Hq|].
    rewrite Hlog, Hc. reflexivity.
  - destruct (Hearlier earlierPageReviewing (storeFails "timeout")
                       "timeout"%string eq_refl) as [Hlog [Hq _]].
    split; [reflexivity|]. split; [exact Hq|].
    rewrite Hlog. reflexivity.
Defined.

(** ** The 45-entry scenario *)

Lemma append_lengths (s s' : State) (reply : PendingReply) :
  step s (AutoLoad reply) = Some s' ->
  let k := length (queueUsers s) in
  let n := length (fst (fetched reply)) in
  length (queueUsers s') = (k + Nat.min 20 (n - k))%nat
  /\ hasMore s' = (Z.of_nat k + Z.of_nat (Nat.min 20 (n - k)) <? Z.of_nat n).
Proof.
  simpl. destruct (autoLoadDue s); [|discriminate]. intros Hstep.
  injection Hstep as <-.
  destruct (loadNextBatch_append s s reply) as [Hq [_ [_ Hm]]].
  rewrite Hq, Hm, length_app, length_firstn, length_skipn. auto.
Qed.

(** C4 fails as stated: after the 18 approvals the queue holds 2
    entries, and whatever the store answers, the refill does not leave a
    queue of 20 with more to load; with the 27 entries still pending it
    leaves 22. *)
Lemma refill_does_not_restore_twenty :
  exists s,
    reviewed18 = Some s
    /\ length (queueUsers s) = 2%nat
    /\ autoLoadDue s = true
    /\ ~ (exists reply s',
            step s (AutoLoad reply) = Some s'
            /\ length (queueUsers s') = 20%nat
            /\ hasMore s' = true)
    /\ exists s', step s refill27 = Some s' /\ length (queueUsers s') = 22%nat.
Proof.
  destruct reviewed18 as [s|] eqn:Hs; [|vm_compute in Hs; discriminate].
  assert (Hlen : length (queueUsers s) = 2%nat)
    by (vm_compute in Hs; injection Hs as <-; reflexivity).
  exists s. split; [reflexivity|]. split; [exact Hlen|].
  split; [vm_compute in Hs; injection Hs as <-; reflexivity|].
  split.
  - intros [reply [s' [Hstep [H20 Hmore]]]].
    destruct (append_lengths s s' reply Hstep) as [Hl Hm].
    rewrite Hlen in Hl, Hm. rewrite Hm in Hmore.
    apply Z.ltb_lt in Hmore. lia.
  - destruct (step s refill27) as [s'|] eqn:Hs'.
    + exists s'. split; [reflexivity|].
      destruct (append_lengths s s' _ Hs') as [Hl _].
      rewrite Hl, Hlen. reflexivity.
    + vm_compute in Hs. injection Hs as <-. vm_compute in Hs'. discriminate.
Qed.

(** C4, amended: with 45 pending entries the initial load gives a queue
    of 20; after 18 approvals the queue holds 2 entries, which is within
    the low-watermark and starts a refill; the refill, answered with the
    27 entries still pending, appends a full batch of 20 to the 2
    remaining entries, so the queue holds 22 entries (18 to 39), and
    [hasMore] stays on with 5 entries of the snapshot not yet in the
    queue. *)
Theorem scenario_45 :
  exists s1 s2 s3,
    loaded45 = Some s1
    /\ length (allPendingUsers s1) = 45%nat
    /\ length (queueUsers s1) = 20%nat
    /\ reviewed18 = Some s2
    /\ length (queueUsers s2) = 2%nat
    /\ autoLoadDue s2 = true
    /\ step s2 refill27 = Some s3
    /\ ids (queueUsers s3) = map sampleId (seq 18 22)
    /\ length (queueUsers s3) = 22%nat
    /\ hasMore s3 = true
    /\ (length (allPendingUsers s3) - length (queueUsers s3) = 5)%nat.
Proof.
  eexists. eexists. eexists.
  split; [vm_compute; reflexivity|].
  split; [reflexivity|].
  split; [reflexivity|].
  split; [vm_compute; reflexivity|].
  split; [reflexivity|].
  split; [reflexivity|].
  split; [vm_compute; reflexivity|].
  repeat split.
Qed.

(** When the refill started at 3 remaining entries resolves before the
    18th approval, the queue holds 23 entries and then, the approval
    made, 22 as well. *)
Lemma scenario_45_early_refill :
  exists s,
    run initState run45_early_refill = Some s
    /\ ids (queueUsers s) = map sampleId (seq 18 22)
    /\ hasMore s = true.
Proof.
  eexists. split; [vm_compute; reflexivity|]. split; reflexivity.
Qed.

(** ** The queue invariant *)

Lemma nodupb_spec (l : list string) : nodupb l = true <-> NoDup l.
Proof.
  induction l as [|x l IH]; simpl.
  - split; [constructor | reflexivity].
  - rewrite andb_true_iff, negb_true_iff, IH. split.
    + intros [Hx Hl]. constructor; [|exact Hl].
      intros Hin. apply not_true_iff_false in Hx. apply Hx.
      apply existsb_exists. exists x. split; [exact Hin | apply String.eqb_refl].
    + intros Hnd. inversion Hnd as [|? ? Hx Hl]; subst. split; [|exact Hl].
      apply not_true_iff_false. intros Hex.
      apply existsb_exists in Hex. destruct Hex as [y [Hin Heq]].
      apply String.eqb_eq in Heq. subst y. exact (Hx Hin).
Qed.

Lemma disjointb_spec (a b : list string) :
  disjointb a b = true -> forall x, In x a -> ~ In x b.
Proof.
  unfold disjointb. rewrite forallb_forall. intros H x Ha Hb.
  specialize (H x Ha). apply negb_true_iff, not_true_iff_false in H.
  apply H, existsb_exists. exists x. split; [exact Hb | apply String.eqb_refl].
Qed.

Lemma prefixb_spec (a b : list string) :
  prefixb a b = true -> a = firstn (length a) b.
Proof.
  revert b. induction a as [|x a IH]; intros [|y b]; simpl; try reflexivity.
  - discriminate.
  - rewrite andb_true_iff, String.eqb_eq. intros [-> H]. f_equal. apply IH, H.
Qed.

Lemma firstn_plus (A : Type) (k n : nat) (l : list A) :
  firstn k l ++ firstn n (skipn k l) = firstn (k + n) l.
Proof.
  revert l. induction k as [|k IH]; intros [|x l]; simpl;
    rewrite ?firstn_nil; try reflexivity.
  f_equal. apply IH.
Qed.

Lemma In_firstn (A : Type) (n : nat) (l : list A) (x : A) :
  In x (firstn n l) -> In x l.
Proof.
  intros H. rewrite <- (firstn_skipn n l). apply in_or_app. now left.
Qed.

Lemma NoDup_firstn (A : Type) (n : nat) (l : list A) :
  NoDup l -> NoDup (firstn n l).
Proof.
  intros H. rewrite <- (firstn_skipn n l) in H.
  exact (NoDup_app_remove_r _ _ H).
Qed.

Lemma NoDup_ids_filter (p : PendingUser -> bool) (q : list PendingUser) :
  NoDup (ids q) -> NoDup (ids (filter p q)).
Proof.
  unfold ids. induction q as [|u q IH]; simpl; intros H; [exact H|].
  inversion H as [|? ? Hu Hq]; subst.
  destruct (p u); simpl; [|exact (IH Hq)].
  constructor; [|exact (IH Hq)].
  intros Hin. apply Hu. apply in_map_iff in Hin.
  destruct Hin as [v [Hv Hin]]. apply filter_In in Hin.
  apply in_map_iff. exists v. tauto.
Qed.

Lemma In_ids_filter (p : PendingUser -> bool) (q : list PendingUser) (x : string) :
  In x (ids (filter p q)) -> In x (ids q).
Proof.
  unfold ids. rewrite !in_map_iff. intros [v [Hv Hin]].
  apply filter_In in Hin. exists v. tauto.
Qed.

Lemma length_ids (l : list PendingUser) : length (ids l) = length l.
Proof. apply length_map. Qed.

Lemma ids_firstn (n : nat) (l : list PendingUser) :
  ids (firstn n l) = firstn n (ids l).
Proof. unfold ids. symmetry. apply firstn_map. Qed.

Lemma ids_skipn (n : nat) (l : list PendingUser) :
  ids (skipn n l) = skipn n (ids l).
Proof. unfold ids. symmetry. apply skipn_map. Qed.

Lemma ids_gender_patch (x : string) (g : string) (q : list PendingUser) :
  ids (map (fun u => if String.eqb (pid u) x then pending_with_gender g u else u) q)
  = ids q.
Proof.
  unfold ids. rewrite map_map. apply map_ext. intros u.
  destruct (String.eqb (pid u) x); reflexivity.
Qed.

(** The first batch of a fitting snapshot is a good queue. *)
Lemma queueInv_first_batch (s' : State) (decided : list string)
  (users : list PendingUser) :
  queueUsers s' = firstn 20 users ->
  allPendingUsers s' = users ->
  nodupb (ids users) = true ->
  disjointb decided (ids users) = true ->
  queueInv s' decided.
Proof.
  intros Hq Ha Hnd Hdis. unfold queueInv. rewrite Hq, Ha, ids_firstn.
  apply nodupb_spec in Hnd. split; [|split].
  - apply NoDup_firstn, Hnd.
  - rewrite length_firstn. apply Nat.le_min_r.
  - intros x Hx Hin. apply (disjointb_spec _ _ Hdis x Hx).
    apply (In_firstn _ 20), Hin.
Qed.

Lemma queueInv_same (s s' : State) (decided : list string) :
  ids (queueUsers s') = ids (queueUsers s) ->
  allPendingUsers s' = allPendingUsers s ->
  queueInv s decided -> queueInv s' decided.
Proof.
  unfold queueInv. intros Hq Ha.
  assert (Hl : length (queueUsers s') = length (queueUsers s)).
  { apply (f_equal (@length string)) in Hq. unfold ids in Hq.
    now rewrite !length_map in Hq. }
  rewrite Hq, Ha, Hl. trivial.
Qed.

Lemma runEffects_queue_frame (b : bool) (prev next : State) :
  queueUsers (runEffects b prev next) = queueUsers next
  /\ allPendingUsers (runEffects b prev next) = allPendingUsers next.
Proof.
  unfold runEffects, modeEffect.
  destruct (mode_eqb (mode prev) (mode next)); [|destruct (mode next)]; cbn;
    destruct (b || negb (filter_eqb (genderFilter prev) (genderFilter next))
              || negb (sort_eqb (sortOrder prev) (sortOrder next)));
    cbn; auto.
Qed.

Lemma queueInv_runEffects (b : bool) (prev next : State) (decided : list string) :
  queueInv next decided -> queueInv (runEffects b prev next) decided.
Proof.
  destruct (runEffects_queue_frame b prev next) as [Hq Ha].
  apply queueInv_same; [now rewrite Hq | exact Ha].
Qed.

(** One event keeps the queue invariant when its fetch fits. *)
Lemma step_keeps_queueInv (s s' : State) (decided : list string) (e : Event) :
  queueInv s decided ->
  snapshotFits s decided e = true ->
  step s e = Some s' ->
  queueInv s' (decided ++ decidedBy s e).
Proof.
  intros Hinv Hfit Hstep.
  assert (Hsame : forall s1,
            queueUsers s1 = queueUsers s ->
            allPendingUsers s1 = allPendingUsers s ->
            decidedBy s e = [] ->
            queueInv s1 (decided ++ decidedBy s e)).
  { intros s1 Hq Ha ->. rewrite app_nil_r.
    apply (queueInv_same s); [now rewrite Hq | exact Ha | exact Hinv]. }
  destruct e; simpl in Hstep, Hfit.
  - (* InitialLoad *)
    injection Hstep as <-. unfold decidedBy. rewrite app_nil_r.
    apply andb_true_iff in Hfit. destruct Hfit as [Hfit Hempty].
    apply andb_true_iff in Hfit. destruct Hfit as [Hnd Hdis].
    apply Nat.eqb_eq, length_zero_iff_nil in Hempty.
    destruct (loadNextBatch_append initState s reply) as [Hq [Ha _]].
    apply (queueInv_first_batch _ _ (fst (fetched reply))); trivial.
    rewrite Hq, Hempty. reflexivity.
  - (* Tick *)
    injection Hstep as <-. unfold decidedBy. rewrite app_nil_r.
    apply andb_true_iff in Hfit. destruct Hfit as [Hnd Hdis].
    destruct (loadNextBatch_refresh_replaces initState s reply eq_refl)
      as [Hq [Ha _]].
    apply (queueInv_first_batch _ _ (fst (fetched reply))); trivial.
  - (* UnknownCount *)
    injection Hstep as <-. apply Hsame; reflexivity.
  - (* AutoLoad *)
    destruct (autoLoadDue s); [|discriminate].
    injection Hstep as <-. unfold decidedBy. rewrite app_nil_r.
    apply andb_true_iff in Hfit. destruct Hfit as [Hfit Hpre].
    apply andb_true_iff in Hfit. destruct Hfit as [Hnd Hdis].
    apply prefixb_spec in Hpre. apply nodupb_spec in Hnd.
    destruct (loadNextBatch_append s s reply) as [Hq [Ha _]].
    assert (Hids : ids (loadNextBatch s false reply s).(queueUsers)
                   = firstn (length (queueUsers s) + 20) (ids (fst (fetched reply)))).
    { rewrite Hq. unfold ids at 1. rewrite map_app. fold (ids (queueUsers s)).
      fold (ids (firstn 20 (skipn (length (queueUsers s)) (fst (fetched reply))))).
      rewrite ids_firstn, ids_skipn. rewrite Hpre at 1.
      rewrite length_ids. apply firstn_plus. }
    unfold queueInv. rewrite Hids, Ha. split; [|split].
    + apply NoDup_firstn, Hnd.
    + rewrite <- (length_ids (queueUsers _)), Hids, length_firstn, length_ids.
      apply Nat.le_min_r.
    + intros x Hx Hin. apply (disjointb_spec _ _ Hdis x Hx).
      apply (In_firstn _ _ _ _ Hin).
  - (* ClickVerifyUsers *)
    destruct (mode_eqb (mode s) dashboard && negb (length (queueUsers s) =? 0)%nat);
      [|discriminate].
    injection Hstep as <-. unfold startVerification.
    destruct (length (queueUsers s) =? 0)%nat; apply Hsame; reflexivity.
  - (* ClickVerifyGenders *)
    destruct (mode_eqb (mode s) dashboard); [|discriminate].
    injection Hstep as <-. apply queueInv_runEffects. apply Hsame; reflexivity.
  - (* ClickBack *)
    destruct (mode s); [discriminate| |]; injection Hstep as <-;
      apply Hsame; reflexivity.
  - (* ClickDecision *)
    unfold decidedBy.
    destruct (mode s); try discriminate.
    destruct (currentUser s) as [cu|] eqn:Hcu; [|discriminate].
    injection Hstep as <-.
    destruct (handleDecision_queue s s decision reply cu Hcu) as [Hq Ha].
    destruct Hinv as [Hnd [Hlen Hdec]].
    unfold queueInv. rewrite Hq, Ha. split; [|split].
    + apply NoDup_ids_filter, Hnd.
    + apply Nat.le_trans with (length (queueUsers s)); [apply filter_length_le | exact Hlen].
    + intros x Hx Hin. apply in_app_or in Hx. destruct Hx as [Hx|[<-|[]]].
      * apply (Hdec x Hx). apply (In_ids_filter _ _ _ Hin).
      * exact (filter_other_ids (pid cu) (queueUsers s) Hin).
  - (* SelectGender *)
    unfold decidedBy. rewrite app_nil_r.
    destruct (mode s); try discriminate.
    destruct (currentUser s) as [cu|] eqn:Hcu; [|discriminate].
    injection Hstep as <-. unfold handleGenderChange. rewrite Hcu.
    destruct reply as [err|].
    + apply (queueInv_same s); trivial.
    + apply (queueInv_same s); trivial.
      cbn [queueUsers setGenderUpdateStatus setQueueUsers setCurrentUser].
      apply ids_gender_patch.
  - (* StatusTimeout *)
    injection Hstep as <-. apply Hsame; reflexivity.
  - (* AllUsersLoaded *)
    injection Hstep as <-. apply queueInv_runEffects. apply Hsame; reflexivity.
  - (* SelectFilter *)
    destruct (mode_eqb (mode s) gender_verification); [|discriminate].
    injection Hstep as <-. apply queueInv_runEffects. apply Hsame; reflexivity.
  - (* SelectSort *)
    destruct (mode_eqb (mode s) gender_verification); [|discriminate].
    injection Hstep as <-. apply queueInv_runEffects. apply Hsame; reflexivity.
  - (* ClickPrevious *)
    destruct (mode_eqb (mode s) gender_verification && (0 <? totalPages s)
              && negb (currentPage s =? 1)); [|discriminate].
    injection Hstep as <-. apply Hsame; reflexivity.
  - (* ClickNext *)
    destruct (mode_eqb (mode s) gender_verification && (0 <? totalPages s)
              && negb (currentPage s =? totalPages s)); [|discriminate].
    injection Hstep as <-. apply Hsame; reflexivity.
  - (* ClickGender *)
    destruct (mode_eqb (mode s) gender_verification
              && existsb (fun u => String.eqb (id u) userId) (paginatedUsers s));
      [|discriminate].
    destruct reply as [err|]; injection Hstep as <-;
      apply queueInv_runEffects; apply Hsame; reflexivity.
Qed.

Lemma run_keeps_queueInv (es : list Event) :
  forall (s s' : State) (decided : list string),
    queueInv s decided ->
    fetchesFit s decided es = true ->
    run s es = Some s' ->
    queueInv s' (decided ++ decidedIds s es).
Proof.
  induction es as [|e es IH]; simpl; intros s s' decided Hinv Hfit Hrun.
  - injection Hrun as <-. rewrite app_nil_r. exact Hinv.
  - apply andb_true_iff in Hfit. destruct Hfit as [Hfit Hrest].
    destruct (step s e) as [s1|] eqn:Hstep; [|discriminate].
    rewrite app_assoc.
    apply (IH s1 s' (decided ++ decidedBy s e)); trivial.
    apply (step_keeps_queueInv s s1 decided e); trivial.
Qed.

Lemma queueInv_init : queueInv initState [].
Proof.
  unfold queueInv. simpl. split; [constructor|]. split; [apply Nat.le_refl|].
  intros x [].
Qed.

(** C1 fails as stated.  A record registered during the review makes the
    refill append an entry the queue already holds; a refill whose fetch
    fails leaves a queue of 3 entries over an empty snapshot; and when
    the store has refused the decisions, the refill brings a decided
    entry back into the queue. *)
Lemma positional_append_breaks_queue_invariant :
  (exists s, run initState runNewRecord = Some s
             /\ ~ NoDup (ids (queueUsers s)))
  /\ (exists s, run initState runFailedRefill = Some s
                /\ (length (allPendingUsers s) < length (queueUsers s))%nat)
  /\ (exists s, run initState runRefusedWrites = Some s
                /\ In (sampleId 3) (decidedIds initState runRefusedWrites)
                /\ In (sampleId 3) (ids (queueUsers s))).
Proof.
  split; [|split].
  - eexists. split; [vm_compute; reflexivity|].
    intros Hnd. apply nodupb_spec in Hnd. vm_compute in Hnd. discriminate.
  - eexists. split; [vm_compute; reflexivity|].
    vm_compute. lia.
  - eexists. split; [vm_compute; reflexivity|].
    split; vm_compute; tauto.
Qed.

Lemma same_ids_spec (a b : list string) : same_ids a b = true <-> a = b.
Proof.
  revert b. induction a as [|x a IH]; intros [|y b]; simpl;
    try (split; [discriminate | intros H; discriminate H]).
  - tauto.
  - rewrite andb_true_iff, String.eqb_eq, IH. split.
    + intros [-> ->]. reflexivity.
    + intros H. injection H as -> ->. auto.
Qed.

(** One arrival keeps the queue invariant when it fits: a late refill
    makes the queue the first [k + 20] entries of its snapshot, a late
    decision makes it the queue of its render without the decided
    entry. *)
Lemma arrive_keeps_queueInv (s s' : State) (decided : list string) (a : Arrival) :
  queueInv s decided ->
  arrivalFits s decided a = true ->
  arrive s a = Some s' ->
  queueInv s' (decided ++ decidedAt s a).
Proof.
  intros Hinv Hfit Harr.
  destruct a as [e|r reply|r decision reply| |r newGender reply|userId newGender reply];
    simpl in Harr, Hfit.
  - (* an event of [step] *)
    exact (step_keeps_queueInv s s' decided e Hinv Hfit Harr).
  - (* RefillResolved *)
    destruct (autoLoadDue r); [|discriminate].
    injection Harr as <-. unfold decidedAt. rewrite app_nil_r.
    apply andb_true_iff in Hfit. destruct Hfit as [Hfit Hpre].
    apply andb_true_iff in Hfit. destruct Hfit as [Hnd Hdis].
    apply same_ids_spec in Hpre. apply nodupb_spec in Hnd.
    destruct (loadNextBatch_append r s reply) as [Hq [Ha _]].
    assert (Hids : ids (loadNextBatch r false reply s).(queueUsers)
                   = firstn (length (queueUsers r) + 20) (ids (fst (fetched reply)))).
    { rewrite Hq. unfold ids at 1. rewrite map_app. fold (ids (queueUsers s)).
      fold (ids (firstn 20 (skipn (length (queueUsers r)) (fst (fetched reply))))).
      rewrite ids_firstn, ids_skipn, Hpre. apply firstn_plus. }
    unfold queueInv. rewrite Hids, Ha. split; [|split].
    + apply NoDup_firstn, Hnd.
    + rewrite <- (length_ids (queueUsers _)), Hids, length_firstn, length_ids.
      apply Nat.le_min_r.
    + intros x Hx Hin. apply (disjointb_spec _ _ Hdis x Hx).
      apply (In_firstn _ _ _ _ Hin).
  - (* DecisionResolved *)
    unfold decidedAt.
    destruct (mode r); try discriminate.
    destruct (currentUser r) as [cu|] eqn:Hcu; [|discriminate].
    injection Harr as <-.
    apply same_ids_spec in Hfit.
    destruct (handleDecision_queue r s decision reply cu Hcu) as [Hq Ha].
    destruct Hinv as [Hnd [Hlen Hdec]].
    unfold queueInv. rewrite Hq, Ha. split; [|split].
    + apply NoDup_ids_filter. rewrite Hfit. exact Hnd.
    + apply Nat.le_trans with (length (queueUsers r)); [apply filter_length_le|].
      rewrite <- (length_ids (queueUsers r)), Hfit, length_ids. exact Hlen.
    + intros x Hx Hin. apply in_app_or in Hx. destruct Hx as [Hx|[<-|[]]].
      * apply (Hdec x Hx). rewrite <- Hfit. apply (In_ids_filter _ _ _ Hin).
      * exact (filter_other_ids (pid cu) (queueUsers r) Hin).
  - (* GenderSelectChanged *)
    unfold decidedAt. rewrite app_nil_r.
    destruct (mode s); try discriminate.
    destruct (currentUser s); [|discriminate].
    injection Harr as <-. apply (queueInv_same s); trivial.
  - (* GenderChangeResolved *)
    unfold decidedAt. rewrite app_nil_r.
    destruct (mode r); try discriminate.
    destruct (currentUser r) as [cu|] eqn:Hcu; [|discriminate].
    injection Harr as <-. unfold handleGenderChange. rewrite Hcu.
    destruct reply as [err|].
    + apply (queueInv_same s); trivial.
    + apply (queueInv_same s); trivial.
      cbn [queueUsers setGenderUpdateStatus setQueueUsers setCurrentUser].
      apply ids_gender_patch.
  - (* GenderUpdateResolved *)
    unfold decidedAt. rewrite app_nil_r.
    destruct reply as [err|]; injection Harr as <-;
      apply queueInv_runEffects; apply (queueInv_same s); trivial.
Qed.

Lemma arrivals_keep_queueInv (l : list Arrival) :
  forall (s s' : State) (decided : list string),
    queueInv s decided ->
    arrivalsFit s decided l = true ->
    arrivals s l = Some s' ->
    queueInv s' (decided ++ decidedAlong s l).
Proof.
  induction l as [|a l IH]; simpl; intros s s' decided Hinv Hfit Hrun.
  - injection Hrun as <-. rewrite app_nil_r. exact Hinv.
  - apply andb_true_iff in Hfit. destruct Hfit as [Hfit Hrest].
    destruct (arrive s a) as [s1|] eqn:Harr; [|discriminate].
    rewrite app_assoc.
    apply (IH s1 s' (decided ++ decidedAt s a)); trivial.
    apply (arrive_keeps_queueInv s s1 decided a); trivial.
Qed.

(** A run of events is the run of arrivals in which every reply arrives
    at once. *)
Lemma arrivals_at_once (es : list Event) (s : State) :
  arrivals s (map at_once es) = run s es.
Proof.
  revert s. induction es as [|e es IH]; intros s; simpl; [reflexivity|].
  destruct (step s e); [apply IH | reflexivity].
Qed.

(** Two refills in flight do not fit, whatever the store answers: with
    the one started at 2 remaining entries and the one started at 3 both
    answered by the 27 pending entries, the second to resolve finds a
    queue of 22 entries where its render had 3, and the queue ends with
    42 entries, entries 21 to 39 twice. *)
Lemma two_refills_in_flight :
  exists s,
    arrivals initState twoRefillsInFlight = Some s
    /\ arrivalsFit initState [] twoRefillsInFlight = false
    /\ length (queueUsers s) = 42%nat
    /\ length (allPendingUsers s) = 27%nat
    /\ ~ NoDup (ids (queueUsers s)).
Proof.
  eexists. split; [vm_compute; reflexivity|].
  split; [vm_compute; reflexivity|].
  split; [reflexivity|]. split; [reflexivity|].
  intros Hnd. apply nodupb_spec in Hnd. vm_compute in Hnd. discriminate.
Qed.

(** C1, amended: the queue holds no identifier twice, is never longer
    than the snapshot, and holds no identifier removed by a decision,
    along every session, replies arriving at once or late, in which each
    fetched snapshot lists no identifier twice and none already decided,
    the initial load finds the queue empty, each refill resolves while
    the identifiers of the queue are the first [k] of the snapshot it
    fetched, [k] being the queue length of the render that started the
    refill, and the update of each decision resolves while the queue
    still has the identifiers it had in the render in which the button
    was clicked. *)
Theorem queue_invariant_when_arrivals_fit :
  forall (l : list Arrival) (s : State),
    arrivalsFit initState [] l = true ->
    arrivals initState l = Some s ->
    NoDup (ids (queueUsers s))
    /\ (length (queueUsers s) <= length (allPendingUsers s))%nat
    /\ forall x, In x (decidedAlong initState l) -> ~ In x (ids (queueUsers s)).
Proof.
  intros l s Hfit Hrun.
  exact (arrivals_keep_queueInv l initState s [] queueInv_init Hfit Hrun).
Qed.

Lemma queue_invariant_when_arrivals_fit_witness :
  exists s,
    arrivals initState lateRefill = Some s
    /\ arrivalsFit initState [] lateRefill = true
    /\ length (decidedAlong initState lateRefill) = 17%nat
    /\ length (queueUsers s) = 23%nat
    /\ NoDup (ids (queueUsers s))
    /\ (length (queueUsers s) <= length (allPendingUsers s))%nat
    /\ ~ In (sampleId 0) (ids (queueUsers s)).
Proof.
  destruct (arrivals initState lateRefill) as [s|] eqn:Hs;
    [|vm_compute in Hs; discriminate].
  assert (Hfit : arrivalsFit initState [] lateRefill = true)
    by (vm_compute; reflexivity).
  destruct (queue_invariant_when_arrivals_fit lateRefill s Hfit Hs)
    as [Hnd [Hlen Hdec]].
  exists s.
  split; [reflexivity|].
  split; [exact Hfit|].
  split; [vm_compute; reflexivity|].
  split; [vm_compute in Hs; injection Hs as <-; reflexivity|].
  split; [exact Hnd|].
  split; [exact Hlen|].
  apply Hdec. vm_compute. tauto.
Defined.

(** ** The earlier dashboard page *)

(** On the earlier page a failed load empties the list. *)
Lemma simple_page_failed_load_clears (reply : PendingReply) (e : string)
  (s : SimplePage.State) :
  q_error (pr_query reply) = Some e ->
  SimplePage.pendingUsers (SimplePage.loadPendingUsers reply s) = [].
Proof. unfold SimplePage.loadPendingUsers. intros ->. reflexivity. Qed.

(** On the earlier page too the decision callback runs whatever the
    update resolved with. *)
Lemma simple_page_decision_any_reply (r s : SimplePage.State) (d : Decision)
  (reply reply' : MutationReply) :
  SimplePage.handleDecision r d reply s = SimplePage.handleDecision r d reply' s.
Proof. reflexivity. Qed.

(** The earlier page writes the decision string itself. *)
Lemma simple_page_reject_writes_rejected (r : SimplePage.State)
  (cu : PendingUser) :
  SimplePage.currentUser r = Some cu ->
  SimplePage.handleDecision_update r dec_rejected
  = Some (pid cu, "rejected"%string).
Proof. unfold SimplePage.handleDecision_update. intros ->. reflexivity. Qed.

(** * Further properties *)

(** ** Verification photos *)

Lemma substring_whole (s : string) : substring 0 (String.length s) s = s.
Proof. induction s as [|c s IH]; simpl; [reflexivity | now rewrite IH]. Qed.

Lemma substring_after (p suffix : string) :
  substring (String.length p) (String.length suffix) (p ++ suffix)%string = suffix.
Proof. induction p as [|c p IH]; simpl; [apply substring_whole | exact IH]. Qed.

Lemma substring_split (k m : nat) :
  forall s : string,
    (k + m)%nat = String.length s ->
    s = (substring 0 k s ++ substring k m s)%string.
Proof.
  induction k as [|k IH]; intros s Hlen; simpl in *.
  - subst m. destruct s; simpl; [reflexivity|].
    now rewrite substring_whole.
  - destruct s as [|c s]; simpl in *; [discriminate|].
    f_equal. apply IH. lia.
Qed.

Lemma string_length_app (a b : string) :
  String.length (a ++ b)%string = (String.length a + String.length b)%nat.
Proof. induction a as [|c a IH]; simpl; [reflexivity | now rewrite IH]. Qed.

(** [endsWith] holds exactly for the strings that end with the suffix. *)
Lemma endsWith_spec (s suffix : string) :
  endsWith s suffix = true <-> exists p, s = (p ++ suffix)%string.
Proof.
  unfold endsWith. rewrite andb_true_iff, Nat.leb_le, String.eqb_eq. split.
  - intros [Hle Hsub].
    exists (substring 0 (String.length s - String.length suffix) s).
    rewrite <- Hsub at 2. apply substring_split. lia.
  - intros [p ->]. rewrite string_length_app. split; [lia|].
    replace (String.length p + String.length suffix - String.length suffix)%nat
      with (String.length p) by lia.
    apply substring_after.
Qed.

(** The files [photoUrls] takes from a folder. *)
Lemma photoUrls_spec (reply : PendingReply) (u : User) (url : string) :
  In url (photoUrls reply u)
  <-> exists files f,
        pr_list reply (id u) = Some files
        /\ In f files
        /\ (exists p, f = (p ++ ".jpg")%string
                      \/ f = (p ++ ".png")%string
                      \/ f = (p ++ ".jpeg")%string)
        /\ url = pr_publicUrl reply (id u ++ "/" ++ f)%string.
Proof.
  unfold photoUrls.
  assert (Himg : forall f, isImageName f = true
                           <-> exists p, f = (p ++ ".jpg")%string
                                         \/ f = (p ++ ".png")%string
                                         \/ f = (p ++ ".jpeg")%string).
  { intros f. unfold isImageName. rewrite !orb_true_iff, !endsWith_spec. split.
    - intros [[[p H]|[p H]]|[p H]]; exists p; auto.
    - intros [p [H|[H|H]]]; [left; left|left; right|right]; exists p; exact H. }
  destruct (pr_list reply (id u)) as [files|].
  - rewrite in_map_iff. split.
    + intros [f [Hurl Hin]]. apply filter_In in Hin. destruct Hin as [Hin Hf].
      exists files, f. rewrite <- Himg. auto.
    + intros [files' [f [Hfiles [Hin [Hf Hurl]]]]].
      injection Hfiles as <-. exists f. split; [auto|].
      apply filter_In. rewrite Himg. auto.
  - split; [intros [] | intros [files [f [H _]]]; discriminate].
Qed.

(** X1: when the query succeeds, [fetchPendingUsers] returns the records
    of the query, in their order, each with its verification photos, and
    logs nothing; the photos of an entry are exactly the public URLs of
    the files listed in the folder named by the entry's identifier whose
    name ends with [.jpg], [.png] or [.jpeg] (as written, in lower
    case); a folder the storage lists nothing for gives no photo. *)
Theorem fetchPendingUsers_photos :
  forall (reply : PendingReply) (s : State),
    q_error (pr_query reply) = None ->
    let users := fst (fst (fetchPendingUsers reply s)) in
    map pu_user users = or_nil (q_data (pr_query reply))
    /\ snd (fetchPendingUsers reply s) = s
    /\ forall (p : PendingUser) (url : string),
         In p users ->
         (In url (verification_photos p)
          <-> exists files f,
                pr_list reply (pid p) = Some files
                /\ In f files
                /\ (exists pre, f = (pre ++ ".jpg")%string
                                \/ f = (pre ++ ".png")%string
                                \/ f = (pre ++ ".jpeg")%string)
                /\ url = pr_publicUrl reply (pid p ++ "/" ++ f)%string).
Proof.
  intros reply s Hok users. subst users.
  unfold fetchPendingUsers. rewrite Hok. cbn [fst snd].
  split; [|split; [reflexivity|]].
  - rewrite map_map. cbn [pu_user]. apply map_id.
  - intros p url Hin. apply in_map_iff in Hin. destruct Hin as [u [<- _]].
    cbn [verification_photos]. unfold pid. cbn [pu_user].
    apply photoUrls_spec.
Qed.

Lemma fetchPendingUsers_photos_witness :
  let reply :=
    mkPendingReply
      (mkQueryReply (Some [sampleUser 0; sampleUser 1]) None (Some 2))
      (fun folder => if String.eqb folder (sampleId 0)
                     then Some ["front.jpg"; "notes.txt"; "SIDE.PNG"; "back.jpeg"]
                     else None)%string
      (fun path => ("https://cdn/" ++ path)%string) in
  q_error (pr_query reply) = None
  /\ map verification_photos (fst (fst (fetchPendingUsers reply initState)))
     = [["https://cdn/u00/front.jpg"; "https://cdn/u00/back.jpeg"]; []]%string
  /\ (In "https://cdn/u00/front.jpg"%string
         (photoUrls reply (sampleUser 0))
      <-> exists files f,
            pr_list reply (sampleId 0) = Some files
            /\ In f files
            /\ (exists pre, f = (pre ++ ".jpg")%string
                            \/ f = (pre ++ ".png")%string
                            \/ f = (pre ++ ".jpeg")%string)
            /\ "https://cdn/u00/front.jpg"%string
               = pr_publicUrl reply (sampleId 0 ++ "/" ++ f)%string).
Proof.
  intros reply.
  destruct (fetchPendingUsers_photos reply initState eq_refl) as [_ [_ Hphotos]].
  split; [reflexivity|]. split; [reflexivity|].
  exact (Hphotos (mkPendingUser (sampleUser 0) (photoUrls reply (sampleUser 0)))
                 "https://cdn/u00/front.jpg"%string (or_introl eq_refl)).
Defined.

(** ** Refills *)

(** X2: a refill walks one batch further through the snapshot it
    fetched.  When it resolves on a queue that is the first [k] entries of
    that snapshot, [k] being the queue length of the render that started
    it, the queue becomes the first [k + 20] entries (all of the snapshot
    when it is shorter), the snapshot and the count are the fetched ones,
    and [hasMore] is off exactly when the queue is the whole snapshot. *)
Theorem refill_extends_the_head :
  forall (r s s' : State) (reply : PendingReply),
    arrive s (RefillResolved r reply) = Some s' ->
    let users := fst (fetched reply) in
    let k := length (queueUsers r) in
    queueUsers s = firstn k users ->
    queueUsers s' = firstn (k + 20) users
    /\ allPendingUsers s' = users
    /\ totalPending s' = snd (fetched reply)
    /\ (hasMore s' = false <-> queueUsers s' = users).
Proof.
  intros r s s' reply Harr users k Hq. simpl in Harr.
  destruct (autoLoadDue r); [|discriminate]. injection Harr as <-.
  destruct (loadNextBatch_append r s reply) as [Hq' [Ha [Ht Hm]]].
  fold users in Hq', Ha, Hm. fold k in Hq', Hm.
  assert (Hqueue : queueUsers (loadNextBatch r false reply s)
                   = firstn (k + 20) users).
  { rewrite Hq', Hq. apply firstn_plus. }
  split; [exact Hqueue|]. split; [exact Ha|]. split; [exact Ht|].
  rewrite Hm, Hqueue, Z.ltb_ge, length_firstn, length_skipn. split.
  - intros Hge. apply firstn_all2. lia.
  - intros Hall. apply (f_equal (@length PendingUser)) in Hall.
    rewrite length_firstn in Hall. lia.
Qed.

Lemma refill_extends_the_head_witness :
  let s := stateAfter ([InitialLoad (storeAnswers (sampleUsers 0 45));
                        ClickVerifyUsers]
                       ++ approvals 17 ++ [UnknownCount (Some 4)]) in
  let reply := storeAnswers (sampleUsers 17 28) in
  exists s',
    arrive s (RefillResolved reviewed17 reply) = Some s'
    /\ length (queueUsers reviewed17) = 3%nat
    /\ queueUsers s = firstn 3 (fst (fetched reply))
    /\ length (queueUsers s') = 23%nat
    /\ hasMore s' = true.
Proof.
  intros s reply.
  destruct (arrive s (RefillResolved reviewed17 reply)) as [s'|] eqn:Hs';
    [|vm_compute in Hs'; discriminate].
  assert (Hq : queueUsers s
               = firstn (length (queueUsers reviewed17)) (fst (fetched reply)))
    by reflexivity.
  destruct (refill_extends_the_head reviewed17 s s' reply Hs' Hq)
    as [Hq' [_ [_ Hm]]].
  exists s'.
  split; [reflexivity|]. split; [reflexivity|]. split; [exact Hq|].
  split; [rewrite Hq'; reflexivity|].
  destruct (hasMore s') eqn:Hmore; [reflexivity|].
  pose proof (proj1 Hm eq_refl) as Hall.
  rewrite Hq' in Hall. vm_compute in Hall. discriminate.
Defined.

(** X3: a refill whose fetch fails keeps the queue and the displayed
    entry, empties the snapshot, zeroes the count, logs the error and
    switches [hasMore] off, so that the low-watermark effect is no longer
    due. *)
Theorem failed_refill_stops_refilling :
  forall (s s' : State) (reply : PendingReply) (e : string),
    q_error (pr_query reply) = Some e ->
    step s (AutoLoad reply) = Some s' ->
    queueUsers s' = queueUsers s
    /\ currentUser s' = currentUser s
    /\ allPendingUsers s' = []
    /\ totalPending s' = 0
    /\ console s' = console s ++ [("Error loading pending users:"%string, e)]
    /\ hasMore s' = false
    /\ autoLoadDue s' = false.
Proof.
  intros s s' reply e Herr Hstep. simpl in Hstep.
  destruct (autoLoadDue s); [|discriminate]. injection Hstep as <-.
  destruct (loadNextBatch_append s s reply) as [Hq [Ha [Ht Hm]]].
  rewrite (fetched_failed reply e Herr) in Hq, Ha, Ht, Hm.
  cbn [fst snd] in Hq, Ha, Ht, Hm.
  rewrite skipn_nil in Hq, Hm. cbn [firstn length] in Hq, Hm.
  rewrite app_nil_r in Hq.
  assert (Hoff : hasMore (loadNextBatch s false reply s) = false).
  { rewrite Hm. apply Z.ltb_ge. lia. }
  split; [exact Hq|].
  split; [unfold loadNextBatch, fetchPendingUsers; rewrite Herr; reflexivity|].
  split; [exact Ha|]. split; [exact Ht|].
  split; [unfold loadNextBatch, fetchPendingUsers; rewrite Herr; reflexivity|].
  split; [exact Hoff|].
  unfold autoLoadDue. rewrite Hoff. apply andb_false_r.
Qed.

Lemma failed_refill_stops_refilling_witness :
  exists s s',
    run initState
        ([InitialLoad (storeAnswers (sampleUsers 0 25)); ClickVerifyUsers]
         ++ approvals 17) = Some s
    /\ autoLoadDue s = true
    /\ step s (AutoLoad (storeFails "timeout")) = Some s'
    /\ length (queueUsers s') = 3%nat
    /\ autoLoadDue s' = false.
Proof.
  destruct (run initState
              ([InitialLoad (storeAnswers (sampleUsers 0 25)); ClickVerifyUsers]
               ++ approvals 17)) as [s|] eqn:Hs; [|vm_compute in Hs; discriminate].
  assert (Hdue : autoLoadDue s = true)
    by (vm_compute in Hs; injection Hs as <-; reflexivity).
  assert (Hlen : length (queueUsers s) = 3%nat)
    by (vm_compute in Hs; injection Hs as <-; reflexivity).
  destruct (step s (AutoLoad (storeFails "timeout"))) as [s'|] eqn:Hs';
    [|simpl in Hs'; rewrite Hdue in Hs'; discriminate].
  destruct (failed_refill_stops_refilling s s' (storeFails "timeout") "timeout"
              eq_refl Hs') as [Hq [_ [_ [_ [_ [_ Hoff]]]]]].
  exists s, s'.
  split; [reflexivity|]. split; [exact Hdue|]. split; [exact Hs'|].
  split; [rewrite Hq; exact Hlen | exact Hoff].
Defined.

(** ** Working through the queue *)

Lemma filter_head_unique (cu : PendingUser) (rest : list PendingUser) :
  NoDup (ids (cu :: rest)) ->
  filter (fun u => negb (String.eqb (pid u) (pid cu))) (cu :: rest) = rest.
Proof.
  intros Hnd. inversion Hnd as [|? ? Hcu _]; subst.
  simpl. rewrite String.eqb_refl. simpl.
  apply forallb_filter_id. apply forallb_forall. intros u Hu.
  apply negb_true_iff, String.eqb_neq. intros Heq. apply Hcu.
  rewrite <- Heq. apply in_map, Hu.
Qed.

(** One decision on the head of a queue with unique identifiers. *)
Lemma decision_on_head (s : State) (d : Decision) (reply : MutationReply)
  (cu : PendingUser) (rest : list PendingUser) :
  mode s = user_verification ->
  queueUsers s = cu :: rest ->
  currentUser s = Some cu ->
  NoDup (ids (cu :: rest)) ->
  exists s',
    step s (ClickDecision d reply) = Some s'
    /\ queueUsers s' = rest
    /\ allPendingUsers s' = allPendingUsers s
    /\ totalPending s' = Z.max 0 (totalPending s - 1)
    /\ currentUser s' = hd_error rest
    /\ (rest = [] -> mode s' = dashboard /\ isUserVerifying s' = false)
    /\ (rest <> [] -> mode s' = user_verification
                      /\ isUserVerifying s' = isUserVerifying s).
Proof.
  intros Hmode Hq Hcu Hnd.
  exists (handleDecision s d reply s).
  split; [simpl; rewrite Hmode, Hcu; reflexivity|].
  unfold handleDecision. rewrite Hcu, Hq, (filter_head_unique cu rest Hnd).
  destruct rest as [|first rest']; cbn.
  - split; [reflexivity|]. split; [reflexivity|]. split; [reflexivity|].
    split; [reflexivity|]. split; [auto|]. intros H. now contradiction H.
  - split; [reflexivity|]. split; [reflexivity|]. split; [reflexivity|].
    split; [reflexivity|]. split; [discriminate|]. auto.
Qed.

Lemma arrivals_decision_cons (s s1 r : State) (d : Decision)
  (reply : MutationReply) (ds : list (State * Decision * MutationReply)) :
  arrive s (DecisionResolved r d reply) = Some s1 ->
  arrivals s (lateDecisions ((r, d, reply) :: ds)) = arrivals s1 (lateDecisions ds).
Proof.
  intros H. cbn [lateDecisions map fst snd arrivals]. rewrite H. reflexivity.
Qed.

(** X4: decisions that resolve in turn work through the queue in order.
    On the review screen, with the head of the queue displayed, no
    identifier twice in the queue and a count of at most 2^53, [n]
    decisions (approved or rejected, confirmed by the store or not), each
    clicked in the render the one before has left, leave the queue
    without its first [n] entries and the count lowered by [n], not below
    zero; the snapshot is not touched; the next entry is displayed, or,
    when the queue is used up, the review ends on the dashboard. *)
Theorem decisions_in_turn_walk_the_queue :
  forall (ds : list (State * Decision * MutationReply)) (s : State),
    mode s = user_verification ->
    currentUser s = hd_error (queueUsers s) ->
    NoDup (ids (queueUsers s)) ->
    0 <= totalPending s <= EXACT_LIMIT ->
    (length ds <= length (queueUsers s))%nat ->
    inTurn s ds ->
    exists s',
      arrivals s (lateDecisions ds) = Some s'
      /\ queueUsers s' = skipn (length ds) (queueUsers s)
      /\ allPendingUsers s' = allPendingUsers s
      /\ totalPending s' = Z.max 0 (totalPending s - Z.of_nat (length ds))
      /\ currentUser s' = hd_error (queueUsers s')
      /\ (ds <> [] -> queueUsers s' = [] ->
          mode s' = dashboard /\ isUserVerifying s' = false)
      /\ (queueUsers s' <> [] ->
          mode s' = user_verification
          /\ isUserVerifying s' = isUserVerifying s).
Proof.
  induction ds as [|[[r d] reply] ds IH]; intros s Hmode Hcu Hnd Ht Hlen Hturn.
  - exists s. simpl. repeat split; auto; try lia; now contradiction H.
  - destruct (queueUsers s) as [|cu rest] eqn:Hq; [simpl in Hlen; lia|].
    simpl in Hcu. cbn [inTurn] in Hturn. destruct Hturn as [Hr Hturn]. subst r.
    destruct (decision_on_head s d reply cu rest Hmode Hq Hcu Hnd)
      as [s1 [Hstep [Hq1 [Ha1 [Ht1 [Hcu1 [Hend1 Hgo1]]]]]]].
    change (step s (ClickDecision d reply))
      with (arrive s (DecisionResolved s d reply)) in Hstep.
    rewrite Hstep in Hturn.
    destruct rest as [|next rest'].
    + destruct ds as [|d' ds']; [|simpl in Hlen; lia].
      exists s1. rewrite (arrivals_decision_cons s s1 s d reply [] Hstep). simpl.
      destruct (Hend1 eq_refl) as [Hm1 Hv1].
      repeat split; auto; congruence.
    + destruct (Hgo1 ltac:(discriminate)) as [Hm1 Hv1].
      destruct (IH s1) as [s' [Hrun [Hq' [Ha' [Ht' [Hcu' [Hend' Hgo']]]]]]].
      * exact Hm1.
      * rewrite Hq1. exact Hcu1.
      * rewrite Hq1. inversion Hnd; assumption.
      * rewrite Ht1. lia.
      * rewrite Hq1. simpl in Hlen |- *. lia.
      * exact Hturn.
      * exists s'. rewrite (arrivals_decision_cons s s1 s d reply ds Hstep).
        split; [exact Hrun|].
        split; [rewrite Hq', Hq1; reflexivity|].
        split; [congruence|].
        split; [rewrite Ht', Ht1; simpl length; lia|].
        split; [exact Hcu'|].
        split.
        -- intros _ Hempty. destruct ds as [|d' ds'].
           ++ simpl in Hq'. rewrite Hq1 in Hq'. congruence.
           ++ apply Hend'; [discriminate | exact Hempty].
        -- intros Hne. destruct (Hgo' Hne) as [Hm' Hv']. split; congruence.
Qed.

Lemma decisions_in_turn_walk_the_queue_witness :
  let s := stateAfter [InitialLoad (storeAnswers (sampleUsers 0 3));
                       ClickVerifyUsers] in
  let s1 := handleDecision s dec_verified None s in
  let ds := [(s, dec_verified, None);
             (s1, dec_rejected, Some "permission denied"%string)] in
  exists s',
    inTurn s ds
    /\ arrivals s (lateDecisions ds) = Some s'
    /\ ids (queueUsers s') = [sampleId 2]
    /\ totalPending s' = 1
    /\ option_map pid (currentUser s') = Some (sampleId 2).
Proof.
  intros s s1 ds.
  assert (Hturn : inTurn s ds).
  { split; [reflexivity|]. split; [reflexivity|]. exact I. }
  assert (Hnd : NoDup (ids (queueUsers s))) by (apply nodupb_spec; reflexivity).
  assert (Ht : 0 <= totalPending s <= EXACT_LIMIT)
    by (split; vm_compute; discriminate).
  assert (Hlen : (length ds <= length (queueUsers s))%nat)
    by (vm_compute; lia).
  destruct (decisions_in_turn_walk_the_queue ds s eq_refl eq_refl Hnd Ht Hlen Hturn)
    as [s' [Hrun [Hq' [_ [Ht' [Hcu' _]]]]]].
  exists s'.
  assert (Hids : ids (queueUsers s') = [sampleId 2])
    by (rewrite Hq'; reflexivity).
  split; [exact Hturn|]. split; [exact Hrun|]. split; [exact Hids|].
  split; [rewrite Ht'; reflexivity|].
  rewrite Hcu'. destruct (queueUsers s') as [|u l]; [discriminate|].
  simpl in *. congruence.
Defined.

(** X20: nothing disables the two buttons while an update is on its way.
    A second click in the render of the first, with another entry still
    in the queue, sends a second update for the same identifier; when it
    resolves after the first, the queue and the displayed entry stay as
    the first decision left them, and the count, when it is at most 2^53,
    is lowered a second time. *)
Theorem second_click_counts_twice :
  forall (r : State) (d1 d2 : Decision) (reply1 reply2 : MutationReply)
         (cu next : PendingUser) (rest : list PendingUser),
    mode r = user_verification ->
    currentUser r = Some cu ->
    queueUsers r = cu :: next :: rest ->
    NoDup (ids (queueUsers r)) ->
    totalPending r <= EXACT_LIMIT ->
    exists s1 s2,
      arrive r (DecisionResolved r d1 reply1) = Some s1
      /\ arrive s1 (DecisionResolved r d2 reply2) = Some s2
      /\ handleDecision_update r d1 = Some (pid cu, decisionStatus d1)
      /\ handleDecision_update r d2 = Some (pid cu, decisionStatus d2)
      /\ queueUsers s1 = next :: rest
      /\ queueUsers s2 = queueUsers s1
      /\ currentUser s2 = currentUser s1
      /\ currentUser s2 = Some next
      /\ totalPending s1 = Z.max 0 (totalPending r - 1)
      /\ totalPending s2 = Z.max 0 (totalPending r - 2).
Proof.
  intros r d1 d2 reply1 reply2 cu next rest Hmode Hcu Hq Hnd Hsafe.
  exists (handleDecision r d1 reply1 r),
         (handleDecision r d2 reply2 (handleDecision r d1 reply1 r)).
  split; [simpl; rewrite Hmode, Hcu; reflexivity|].
  split; [simpl; rewrite Hmode, Hcu; reflexivity|].
  split; [unfold handleDecision_update; rewrite Hcu; reflexivity|].
  split; [unfold handleDecision_update; rewrite Hcu; reflexivity|].
  rewrite Hq in Hnd.
  unfold handleDecision. rewrite Hcu, Hq, (filter_head_unique cu _ Hnd).
  cbn. repeat split; lia.
Qed.

Lemma second_click_counts_twice_witness :
  let r := stateAfter [InitialLoad (storeAnswers (sampleUsers 0 3));
                       ClickVerifyUsers] in
  exists s1 s2,
    arrive r (DecisionResolved r dec_verified None) = Some s1
    /\ arrive s1 (DecisionResolved r dec_rejected None) = Some s2
    /\ totalPending r = 3
    /\ ids (queueUsers r) = [sampleId 0; sampleId 1; sampleId 2]
    /\ ids (queueUsers s2) = [sampleId 1; sampleId 2]
    /\ totalPending s2 = 1
    /\ handleDecision_update r dec_verified = Some (sampleId 0, st_verified)
    /\ handleDecision_update r dec_rejected = Some (sampleId 0, st_unverified).
Proof.
  intros r.
  assert (Hnd : NoDup (ids (queueUsers r))) by (apply nodupb_spec; reflexivity).
  assert (Hsafe : totalPending r <= EXACT_LIMIT) by (vm_compute; discriminate).
  destruct (second_click_counts_twice r dec_verified dec_rejected None None
              (mkPendingUser (sampleUser 0) [])
              (mkPendingUser (sampleUser 1) [])
              [mkPendingUser (sampleUser 2) []]
              eq_refl eq_refl eq_refl Hnd Hsafe)
    as [s1 [s2 [H1 [H2 [Hu1 [Hu2 [Hq1 [Hq2 [_ [_ [_ Ht2]]]]]]]]]]].
  exists s1, s2.
  split; [exact H1|]. split; [exact H2|].
  split; [reflexivity|]. split; [reflexivity|].
  split; [rewrite Hq2, Hq1; reflexivity|].
  split; [rewrite Ht2; reflexivity|].
  split; [exact Hu1 | exact Hu2].
Defined.

(** ** Review mode and the review screen *)

Lemma reviewInv_same (s s' : State) :
  mode s' = mode s ->
  isUserVerifying s' = isUserVerifying s ->
  currentUser s' = currentUser s ->
  reviewInv s -> reviewInv s'.
Proof. unfold reviewInv. intros -> -> ->. trivial. Qed.

Lemma loadNextBatch_review_frame (r s : State) (b : bool) (reply : PendingReply) :
  mode (loadNextBatch r b reply s) = mode s
  /\ isUserVerifying (loadNextBatch r b reply s) = isUserVerifying s
  /\ currentUser (loadNextBatch r b reply s) = currentUser s.
Proof.
  unfold loadNextBatch, fetchPendingUsers.
  destruct (q_error (pr_query reply)), b, (isUserVerifying r); auto.
Qed.

Lemma runEffects_review_frame (b : bool) (prev next : State) :
  mode (runEffects b prev next) = mode next
  /\ isUserVerifying (runEffects b prev next) = isUserVerifying next
  /\ currentUser (runEffects b prev next) = currentUser next.
Proof.
  unfold runEffects, modeEffect.
  destruct (mode_eqb (mode prev) (mode next));
    [|destruct (mode next) eqn:Hm]; cbn;
    destruct (b || negb (filter_eqb (genderFilter prev) (genderFilter next))
              || negb (sort_eqb (sortOrder prev) (sortOrder next)));
    cbn; rewrite ?Hm; auto.
Qed.

Lemma reviewInv_runEffects (b : bool) (prev next : State) :
  reviewInv next -> reviewInv (runEffects b prev next).
Proof.
  destruct (runEffects_review_frame b prev next) as [Hm [Hv Hc]].
  apply reviewInv_same; assumption.
Qed.

Lemma mode_eqb_eq (a b : Mode) : mode_eqb a b = true <-> a = b.
Proof. destruct a, b; simpl; split; congruence || reflexivity. Qed.

Lemma step_keeps_reviewInv (s s' : State) (e : Event) :
  step s e = Some s' -> reviewInv s -> reviewInv s'.
Proof.
  intros Hstep Hinv.
  assert (Hload : forall r b reply, reviewInv (loadNextBatch r b reply s)).
  { intros r b reply.
    destruct (loadNextBatch_review_frame r s b reply) as [Hm [Hv Hc]].
    apply (reviewInv_same s); assumption. }
  destruct e; simpl in Hstep.
  - injection Hstep as <-. apply Hload.
  - injection Hstep as <-. apply Hload.
  - injection Hstep as <-. exact Hinv.
  - destruct (autoLoadDue s); [|discriminate]. injection Hstep as <-. apply Hload.
  - destruct (mode_eqb (mode s) dashboard) eqn:Hmode; [|discriminate].
    destruct (queueUsers s) as [|first rest] eqn:Hq; [discriminate|].
    injection Hstep as <-. unfold startVerification.
    cbn [queueUsers setMode]. rewrite Hq. cbn.
    split; [split; reflexivity | discriminate].
  - destruct (mode_eqb (mode s) dashboard) eqn:Hmode; [|discriminate].
    injection Hstep as <-. apply reviewInv_runEffects.
    apply mode_eqb_eq in Hmode. destruct Hinv as [Hiff _].
    split; cbn; [|discriminate].
    split; [|discriminate].
    intros Hv. apply Hiff in Hv. congruence.
  - destruct (mode s) eqn:Hmode; [discriminate| |]; injection Hstep as <-.
    + split; cbn; [split|]; discriminate.
    + destruct Hinv as [Hiff _].
      split; cbn; [|discriminate].
      split; [|discriminate].
      intros Hv. apply Hiff in Hv. congruence.
  - destruct (mode s) eqn:Hmode; try discriminate.
    destruct (currentUser s) as [cu|] eqn:Hcu; [|discriminate].
    injection Hstep as <-. unfold handleDecision. rewrite Hcu.
    destruct Hinv as [Hiff Hshown].
    destruct (filter _ (queueUsers s)) as [|first rest]; unfold reviewInv; cbn.
    + split; [split|]; discriminate.
    + split; [exact Hiff | discriminate].
  - destruct (mode s) eqn:Hmode; try discriminate.
    destruct (currentUser s) as [cu|] eqn:Hcu; [|discriminate].
    injection Hstep as <-. unfold handleGenderChange. rewrite Hcu.
    destruct Hinv as [Hiff Hshown].
    destruct reply as [err|]; unfold reviewInv; cbn;
      (split; [exact Hiff | intros _; rewrite ?Hcu; discriminate]).
  - injection Hstep as <-. exact Hinv.
  - injection Hstep as <-. apply reviewInv_runEffects. exact Hinv.
  - destruct (mode_eqb (mode s) gender_verification); [|discriminate].
    injection Hstep as <-. apply reviewInv_runEffects. exact Hinv.
  - destruct (mode_eqb (mode s) gender_verification); [|discriminate].
    injection Hstep as <-. apply reviewInv_runEffects. exact Hinv.
  - destruct (mode_eqb (mode s) gender_verification && (0 <? totalPages s)
              && negb (currentPage s =? 1)); [|discriminate].
    injection Hstep as <-. exact Hinv.
  - destruct (mode_eqb (mode s) gender_verification && (0 <? totalPages s)
              && negb (currentPage s =? totalPages s)); [|discriminate].
    injection Hstep as <-. exact Hinv.
  - destruct (mode_eqb (mode s) gender_verification
              && existsb (fun u => String.eqb (id u) userId) (paginatedUsers s));
      [|discriminate].
    destruct reply as [err|]; injection Hstep as <-;
      apply reviewInv_runEffects; exact Hinv.
Qed.

Lemma reachable_reviewInv (s : State) : reachable s -> reviewInv s.
Proof.
  induction 1 as [|s e s' _ IH Hstep].
  - split; cbn; [split|]; discriminate.
  - exact (step_keeps_reviewInv s s' e Hstep IH).
Qed.

(** X5: in every state of a session review mode is on exactly on the
    review screen, the review screen always has an entry to display, and
    so the text "No more users to verify" is never shown: the decision
    that empties the queue clears the entry and leaves for the dashboard
    in the same callback, whose setters are committed together. *)
Theorem review_screen_always_has_an_entry :
  forall s : State,
    reachable s ->
    (isUserVerifying s = true <-> mode s = user_verification)
    /\ (mode s = user_verification -> exists cu, currentUser s = Some cu)
    /\ showsNoMoreUsers s = false.
Proof.
  intros s Hreach. destruct (reachable_reviewInv s Hreach) as [Hiff Hshown].
  split; [exact Hiff|]. split.
  - intros Hmode. destruct (currentUser s) as [cu|] eqn:Hcu.
    + exists cu. reflexivity.
    + now contradiction (Hshown Hmode).
  - unfold showsNoMoreUsers.
    destruct (mode_eqb (mode s) user_verification) eqn:Hmode; [|reflexivity].
    apply mode_eqb_eq in Hmode.
    destruct (currentUser s); [reflexivity | now contradiction (Hshown Hmode)].
Qed.

Lemma review_screen_always_has_an_entry_witness :
  exists s,
    run initState
        ([InitialLoad (storeAnswers (sampleUsers 0 2)); ClickVerifyUsers]
         ++ approvals 2) = Some s
    /\ reachable s
    /\ queueUsers s = []
    /\ mode s = dashboard
    /\ isUserVerifying s = false
    /\ showsNoMoreUsers s = false.
Proof.
  destruct (run initState
              ([InitialLoad (storeAnswers (sampleUsers 0 2)); ClickVerifyUsers]
               ++ approvals 2)) as [s|] eqn:Hs; [|vm_compute in Hs; discriminate].
  assert (Hreach : reachable s) by exact (run_reachable _ s Hs).
  destruct (review_screen_always_has_an_entry s Hreach) as [_ [_ Hno]].
  exists s.
  split; [reflexivity|]. split; [exact Hreach|].
  split; [vm_compute in Hs; injection Hs as <-; reflexivity|].
  split; [vm_compute in Hs; injection Hs as <-; reflexivity|].
  split; [vm_compute in Hs; injection Hs as <-; reflexivity|].
  exact Hno.
Defined.

(** X6: in every state of a session the text "Loading more users..." is
    on the screen exactly when the low-watermark effect is due. *)
Theorem loading_text_iff_refill_due :
  forall s : State,
    reachable s -> showsLoadingMore s = autoLoadDue s.
Proof.
  intros s Hreach. destruct (reachable_reviewInv s Hreach) as [Hiff Hshown].
  unfold showsLoadingMore, autoLoadDue.
  destruct (mode_eqb (mode s) user_verification) eqn:Hmode.
  - apply mode_eqb_eq in Hmode.
    rewrite (proj2 Hiff Hmode).
    destruct (currentUser s); [reflexivity | now contradiction (Hshown Hmode)].
  - destruct (isUserVerifying s) eqn:Hv; [|reflexivity].
    pose proof (proj1 Hiff eq_refl) as Hm.
    apply mode_eqb_eq in Hm. congruence.
Qed.

Lemma loading_text_iff_refill_due_witness :
  exists s,
    run initState
        ([InitialLoad (storeAnswers (sampleUsers 0 25)); ClickVerifyUsers]
         ++ approvals 17) = Some s
    /\ reachable s
    /\ showsLoadingMore s = true
    /\ autoLoadDue s = true.
Proof.
  destruct (run initState
              ([InitialLoad (storeAnswers (sampleUsers 0 25)); ClickVerifyUsers]
               ++ approvals 17)) as [s|] eqn:Hs; [|vm_compute in Hs; discriminate].
  assert (Hreach : reachable s) by exact (run_reachable _ s Hs).
  assert (Hdue : autoLoadDue s = true)
    by (vm_compute in Hs; injection Hs as <-; reflexivity).
  exists s.
  split; [reflexivity|]. split; [exact Hreach|].
  split; [rewrite (loading_text_iff_refill_due s Hreach); exact Hdue | exact Hdue].
Defined.

(** ** Correcting the gender of the entry under review *)

(** X7: a gender correction on the review screen.  When the update is
    confirmed, the displayed entry and the queue entries with its
    identifier get the new gender and nothing else changes in them; the
    queue keeps its length, order and identifiers; the snapshot is not
    patched.  When the update fails, the queue and the displayed entry
    stay as they are, the error is logged and the status is [error]. *)
Theorem handleGenderChange_patches_queue_only :
  forall (r s : State) (newGender : string) (cu : PendingUser),
    currentUser r = Some cu ->
    (let s' := handleGenderChange r newGender None s in
     currentUser s' = Some (pending_with_gender newGender cu)
     /\ ids (queueUsers s') = ids (queueUsers s)
     /\ (forall i u,
           nth_error (queueUsers s) i = Some u ->
           nth_error (queueUsers s') i
           = Some (if String.eqb (pid u) (pid cu)
                   then pending_with_gender newGender u else u))
     /\ allPendingUsers s' = allPendingUsers s
     /\ genderUpdateStatus s' = success
     /\ console s' = console s)
    /\ (forall e,
          let s' := handleGenderChange r newGender (Some e) s in
          currentUser s' = currentUser s
          /\ queueUsers s' = queueUsers s
          /\ genderUpdateStatus s' = error
          /\ console s' = console s ++ [("Error updating gender:"%string, e)]).
Proof.
  intros r s newGender cu Hcu. unfold handleGenderChange. rewrite Hcu. split.
  - cbn. split; [reflexivity|]. split; [apply ids_gender_patch|].
    split; [|auto].
    intros i u Hu. rewrite nth_error_map, Hu. reflexivity.
  - intros e. cbn. auto.
Qed.

Lemma handleGenderChange_patches_queue_only_witness :
  exists s,
    twoLoadedReviewing = Some s
    /\ option_map pid (currentUser s) = Some (sampleId 0)
    /\ map (fun u => gender (pu_user u))
           (queueUsers (handleGenderChange s "Female" None s))
       = [Some "Female"%string; None]
    /\ map (fun u => gender (pu_user u))
           (allPendingUsers (handleGenderChange s "Female" None s))
       = [None; None].
Proof.
  destruct twoLoadedReviewing as [s|] eqn:Hs; [|vm_compute in Hs; discriminate].
  destruct (currentUser s) as [cu|] eqn:Hcu;
    [|vm_compute in Hs; injection Hs as <-; discriminate].
  destruct (handleGenderChange_patches_queue_only s s "Female" cu Hcu)
    as [[_ [_ [_ [Ha _]]]] _].
  exists s.
  split; [reflexivity|].
  split; [vm_compute in Hs; injection Hs as <-; vm_compute in Hcu;
          injection Hcu as <-; reflexivity|].
  split; [vm_compute in Hs; injection Hs as <-; reflexivity|].
  rewrite Ha. vm_compute in Hs. injection Hs as <-. reflexivity.
Defined.

(** ** The derived view *)

Lemma sort_insert_createdAt (o : SortOrder) (t : Z) (x : User) (l : list User) :
  createdAt t (sort_insert (compareCreated o) x l) = createdAt t (x :: l).
Proof.
  unfold createdAt. induction l as [|y ys IH]; [reflexivity|].
  cbn [sort_insert].
  destruct (Z.leb_spec (compareCreated o x y) 0) as [Hle|Hgt]; [reflexivity|].
  cbn [filter] in *. rewrite IH.
  destruct (Z.eqb_spec (created_at x) t) as [Hx|Hx];
    destruct (Z.eqb_spec (created_at y) t) as [Hy|Hy]; try reflexivity.
  destruct o; unfold compareCreated in Hgt; lia.
Qed.

Lemma js_sort_createdAt (o : SortOrder) (t : Z) (l : list User) :
  createdAt t (js_sort (compareCreated o) l) = createdAt t l.
Proof.
  induction l as [|x xs IH]; [reflexivity|].
  cbn [js_sort]. rewrite sort_insert_createdAt.
  unfold createdAt in *. cbn [filter]. rewrite IH. reflexivity.
Qed.

Lemma Sorted_weaken (A : Type) (R R' : A -> A -> Prop) (l : list A) :
  (forall a b, R a b -> R' a b) -> Sorted.Sorted R l -> Sorted.Sorted R' l.
Proof.
  intros HR. induction 1 as [|a l _ IH Hhd]; constructor; [exact IH|].
  destruct Hhd; constructor. auto.
Qed.

(** X8: the derived view is in the order of the sort direction, oldest
    first for [asc] and newest first for [desc], and records created at
    the same instant keep the order they have in the dataset. *)
Theorem derivedView_ordered_and_stable :
  forall (l : list User) (f : GenderFilter) (o : SortOrder),
    inCreationOrder o (derivedView l f o)
    /\ forall t, createdAt t (derivedView l f o)
                 = createdAt t (applyGenderFilter f l).
Proof.
  intros l f o. unfold derivedView. split.
  - unfold inCreationOrder.
    apply (Sorted_weaken _ (fun a b => compareCreated o a b <= 0)).
    + intros a b. destruct o; unfold compareCreated; lia.
    + apply js_sort_sorted.
  - intros t. apply js_sort_createdAt.
Qed.

Lemma runEffects_viewInSync (b : bool) (prev next : State) :
  viewInSync prev ->
  filteredGenderUsers next = filteredGenderUsers prev ->
  (b = false -> genderUsers next = genderUsers prev) ->
  viewInSync (runEffects b prev next).
Proof.
  unfold viewInSync, runEffects, modeEffect. intros Hprev Hf Hg.
  assert (Hkeep : forall n : State,
            genderUsers n = genderUsers next ->
            genderFilter n = genderFilter next ->
            sortOrder n = sortOrder next ->
            filteredGenderUsers n = filteredGenderUsers next ->
            viewInSync
              (if b || negb (filter_eqb (genderFilter prev) (genderFilter n))
                  || negb (sort_eqb (sortOrder prev) (sortOrder n))
               then derivedViewEffect n else n)).
  { intros n Hgn Hfn Hsn Hvn. unfold viewInSync.
    destruct b; cbn [orb]; [reflexivity|].
    rewrite Hfn, Hsn.
    destruct (filter_eqb (genderFilter prev) (genderFilter next)) eqn:Hfe;
      cbn [negb orb]; [|reflexivity].
    destruct (sort_eqb (sortOrder prev) (sortOrder next)) eqn:Hse;
      cbn [negb]; [|reflexivity].
    apply filter_eqb_eq in Hfe. apply sort_eqb_eq in Hse.
    rewrite Hvn, Hgn, Hfn, Hsn, Hf, Hprev, (Hg eq_refl), Hfe, Hse. reflexivity. }
  destruct (mode_eqb (mode prev) (mode next)); [apply Hkeep; reflexivity|].
  destruct (mode next); apply Hkeep; reflexivity.
Qed.

Lemma viewInSync_same (s s' : State) :
  genderUsers s' = genderUsers s ->
  genderFilter s' = genderFilter s ->
  sortOrder s' = sortOrder s ->
  filteredGenderUsers s' = filteredGenderUsers s ->
  viewInSync s -> viewInSync s'.
Proof. unfold viewInSync. intros -> -> -> ->. trivial. Qed.

Lemma loadNextBatch_view_frame (r s : State) (b : bool) (reply : PendingReply) :
  genderUsers (loadNextBatch r b reply s) = genderUsers s
  /\ genderFilter (loadNextBatch r b reply s) = genderFilter s
  /\ sortOrder (loadNextBatch r b reply s) = sortOrder s
  /\ filteredGenderUsers (loadNextBatch r b reply s) = filteredGenderUsers s.
Proof.
  unfold loadNextBatch, fetchPendingUsers.
  destruct (q_error (pr_query reply)), b, (isUserVerifying r); auto.
Qed.

Lemma step_keeps_viewInSync (s s' : State) (e : Event) :
  step s e = Some s' -> viewInSync s -> viewInSync s'.
Proof.
  intros Hstep Hinv.
  assert (Hload : forall r b reply, viewInSync (loadNextBatch r b reply s)).
  { intros r b reply.
    destruct (loadNextBatch_view_frame r s b reply) as [H1 [H2 [H3 H4]]].
    apply (viewInSync_same s); assumption. }
  destruct e; simpl in Hstep.
  - injection Hstep as <-. apply Hload.
  - injection Hstep as <-. apply Hload.
  - injection Hstep as <-. exact Hinv.
  - destruct (autoLoadDue s); [|discriminate]. injection Hstep as <-. apply Hload.
  - destruct (mode_eqb (mode s) dashboard && negb (length (queueUsers s) =? 0)%nat);
      [|discriminate].
    injection Hstep as <-. unfold startVerification.
    destruct (length (queueUsers s) =? 0)%nat; exact Hinv.
  - destruct (mode_eqb (mode s) dashboard); [|discriminate].
    injection Hstep as <-. apply runEffects_viewInSync; auto.
  - destruct (mode s); [discriminate| |]; injection Hstep as <-; exact Hinv.
  - destruct (mode s); try discriminate.
    destruct (currentUser s) as [cu|] eqn:Hcu; [|discriminate].
    injection Hstep as <-. unfold handleDecision. rewrite Hcu.
    match goal with |- context [if ?c then _ else _] => destruct c end;
      exact Hinv.
  - destruct (mode s); try discriminate.
    destruct (currentUser s) as [cu|] eqn:Hcu; [|discriminate].
    injection Hstep as <-. unfold handleGenderChange. rewrite Hcu.
    destruct reply; exact Hinv.
  - injection Hstep as <-. exact Hinv.
  - injection Hstep as <-. apply runEffects_viewInSync; auto. discriminate.
  - destruct (mode_eqb (mode s) gender_verification); [|discriminate].
    injection Hstep as <-. apply runEffects_viewInSync; auto.
  - destruct (mode_eqb (mode s) gender_verification); [|discriminate].
    injection Hstep as <-. apply runEffects_viewInSync; auto.
  - destruct (mode_eqb (mode s) gender_verification && (0 <? totalPages s)
              && negb (currentPage s =? 1)); [|discriminate].
    injection Hstep as <-. exact Hinv.
  - destruct (mode_eqb (mode s) gender_verification && (0 <? totalPages s)
              && negb (currentPage s =? totalPages s)); [|discriminate].
    injection Hstep as <-. exact Hinv.
  - destruct (mode_eqb (mode s) gender_verification
              && existsb (fun u => String.eqb (id u) userId) (paginatedUsers s));
      [|discriminate].
    destruct reply as [err|]; injection Hstep as <-.
    + apply runEffects_viewInSync; auto.
    + apply runEffects_viewInSync; auto. discriminate.
Qed.

Lemma reachable_viewInSync (s : State) : reachable s -> viewInSync s.
Proof.
  induction 1 as [|s e s' _ IH Hstep].
  - reflexivity.
  - exact (step_keeps_viewInSync s s' e Hstep IH).
Qed.

(** X9: in every state of a session the list on the gender screen is the
    derived view of the current dataset, filter and sort direction; in
    particular every record shown is a record of the dataset that passes
    the filter. *)
Theorem derived_view_in_sync :
  forall s : State,
    reachable s ->
    filteredGenderUsers s
    = derivedView (genderUsers s) (genderFilter s) (sortOrder s)
    /\ forall u, In u (filteredGenderUsers s)
                 <-> In u (applyGenderFilter (genderFilter s) (genderUsers s)).
Proof.
  intros s Hreach. pose proof (reachable_viewInSync s Hreach) as Hsync.
  split; [exact Hsync|].
  intros u. rewrite Hsync. unfold derivedView. split; intros Hin.
  - apply (Permutation_in u (js_sort_perm _ _ _) Hin).
  - apply (Permutation_in u (Permutation_sym (js_sort_perm _ _ _)) Hin).
Qed.

Lemma derived_view_in_sync_witness :
  exists s,
    run initState
        [ClickVerifyGenders;
         AllUsersLoaded (Some [with_gender "Male" (sampleUser 0); sampleUser 1;
                               with_gender "Female" (sampleUser 2)]);
         SelectSort asc;
         SelectFilter (f_named Female);
         ClickGender (sampleId 2) Male None] = Some s
    /\ reachable s
    /\ filteredGenderUsers s = []
    /\ map gender (genderUsers s)
       = [Some "Male"%string; None; Some "Male"%string].
Proof.
  destruct (run initState
        [ClickVerifyGenders;
         AllUsersLoaded (Some [with_gender "Male" (sampleUser 0); sampleUser 1;
                               with_gender "Female" (sampleUser 2)]);
         SelectSort asc;
         SelectFilter (f_named Female);
         ClickGender (sampleId 2) Male None]) as [s|] eqn:Hs;
    [|vm_compute in Hs; discriminate].
  assert (Hreach : reachable s) by exact (run_reachable _ s Hs).
  destruct (derived_view_in_sync s Hreach) as [Hsync _].
  exists s.
  split; [reflexivity|]. split; [exact Hreach|].
  split; [|vm_compute in Hs; injection Hs as <-; reflexivity].
  rewrite Hsync. vm_compute in Hs. injection Hs as <-. reflexivity.
Defined.

(** ** Pages of the gender screen *)

Lemma pageAt_chunk (s : State) (i : nat) :
  pageAt s (S i) = firstn 20 (skipn (20 * i) (filteredGenderUsers s)).
Proof.
  unfold pageAt, paginatedUsers.
  cbn [currentPage filteredGenderUsers setCurrentPage].
  replace ((Z.of_nat (S i) - 1) * PAGE_SIZE) with (Z.of_nat (20 * i))
    by (unfold PAGE_SIZE; lia).
  replace (Z.of_nat (S i) * PAGE_SIZE) with (Z.of_nat (20 * i) + PAGE_SIZE)
    by (unfold PAGE_SIZE; lia).
  apply js_slice_batch.
Qed.

Lemma concat_chunks (A : Type) (l : list A) (m : nat) :
  concat (map (fun i => firstn 20 (skipn (20 * i) l)) (seq 0 m))
  = firstn (20 * m) l.
Proof.
  induction m as [|m IH]; [reflexivity|].
  rewrite seq_S, map_app, concat_app, IH. cbn [map concat Nat.add].
  rewrite app_nil_r, firstn_plus. f_equal. lia.
Qed.

Lemma totalPages_bounds (s : State) :
  20 * (totalPages s - 1) < Z.of_nat (length (filteredGenderUsers s))
  <= 20 * totalPages s.
Proof.
  unfold totalPages.
  apply (proj1 (ceil_div_spec _ PAGE_SIZE _ ltac:(reflexivity)) eq_refl).
Qed.

(** X10: the pages 1 to [totalPages] of the gender screen, one after the
    other, are the derived view: no record is left out or shown on two
    pages; each of these pages holds at least one and at most 20
    records. *)
Theorem pages_partition_the_view :
  forall s : State,
    concat (map (pageAt s) (seq 1 (Z.to_nat (totalPages s))))
    = filteredGenderUsers s
    /\ forall p : nat,
         (1 <= p)%nat -> Z.of_nat p <= totalPages s ->
         pageAt s p <> [] /\ (length (pageAt s p) <= 20)%nat.
Proof.
  intros s. pose proof (totalPages_bounds s) as [Hlo Hhi].
  pose proof (totalPages_nonneg s) as Hnn. split.
  - rewrite <- seq_shift, map_map.
    rewrite (map_ext _ _ (pageAt_chunk s)), concat_chunks.
    apply firstn_all2. lia.
  - intros [|i] Hp Hle; [lia|]. rewrite pageAt_chunk. split.
    + intros Hnil. apply (f_equal (@length User)) in Hnil.
      rewrite length_firstn, length_skipn in Hnil. cbn [length] in Hnil. lia.
    + rewrite length_firstn. apply Nat.le_min_l.
Qed.

Lemma pages_partition_the_view_witness :
  exists s,
    secondPage = Some s
    /\ totalPages s = 2
    /\ length (pageAt s 1) = 20%nat
    /\ length (pageAt s 2) = 5%nat
    /\ pageAt s 1 ++ pageAt s 2 = filteredGenderUsers s
    /\ pageAt s 2 <> [].
Proof.
  destruct secondPage as [s|] eqn:Hs; [|vm_compute in Hs; discriminate].
  assert (Htp : totalPages s = 2)
    by (vm_compute in Hs; injection Hs as <-; reflexivity).
  destruct (pages_partition_the_view s) as [Hcat Hpage].
  rewrite Htp in Hcat. change (seq 1 (Z.to_nat 2)) with [1%nat; 2%nat] in Hcat.
  cbn [map concat] in Hcat. rewrite app_nil_r in Hcat.
  exists s.
  split; [reflexivity|]. split; [exact Htp|].
  split; [vm_compute in Hs; injection Hs as <-; reflexivity|].
  split; [vm_compute in Hs; injection Hs as <-; reflexivity|].
  split; [exact Hcat|].
  apply (Hpage 2%nat); [lia | rewrite Htp; lia].
Defined.

(** X11: on the gender screen "Next" followed by "Previous", and
    "Previous" followed by "Next", come back to the same state; "Next" is
    not available on the last page and "Previous" not on the first. *)
Theorem next_and_previous_undo_each_other :
  forall s : State,
    reachable s ->
    (forall s1, step s ClickNext = Some s1 -> step s1 ClickPrevious = Some s)
    /\ (forall s1, step s ClickPrevious = Some s1 -> step s1 ClickNext = Some s)
    /\ (currentPage s = totalPages s -> step s ClickNext = None)
    /\ (currentPage s = 1 -> step s ClickPrevious = None).
Proof.
  intros s Hreach. pose proof (reachable_pageInRange s Hreach) as [Hlo Hhi].
  split; [|split; [|split]].
  - intros s1 Hstep. simpl in Hstep.
    destruct (mode_eqb (mode s) gender_verification) eqn:Hmode; [|discriminate].
    destruct (Z.ltb_spec 0 (totalPages s)) as [Hpos|]; [|discriminate].
    destruct (Z.eqb_spec (currentPage s) (totalPages s)) as [|Hne];
      [discriminate|].
    injection Hstep as <-. unfold nextPage.
    replace (Z.min (totalPages s) (currentPage s + 1)) with (currentPage s + 1)
      by lia.
    simpl. change (totalPages (setCurrentPage (currentPage s + 1) s))
      with (totalPages s).
    rewrite Hmode. destruct (Z.ltb_spec 0 (totalPages s)); [|lia].
    destruct (Z.eqb_spec (currentPage s + 1) 1); [lia|].
    unfold previousPage.
    cbn [andb negb currentPage setCurrentPage].
    replace (Z.max 1 (currentPage s + 1 - 1)) with (currentPage s) by lia.
    destruct s; reflexivity.
  - intros s1 Hstep. simpl in Hstep.
    destruct (mode_eqb (mode s) gender_verification) eqn:Hmode; [|discriminate].
    destruct (Z.ltb_spec 0 (totalPages s)) as [Hpos|]; [|discriminate].
    destruct (Z.eqb_spec (currentPage s) 1) as [|Hne]; [discriminate|].
    injection Hstep as <-. unfold previousPage.
    replace (Z.max 1 (currentPage s - 1)) with (currentPage s - 1) by lia.
    simpl. change (totalPages (setCurrentPage (currentPage s - 1) s))
      with (totalPages s).
    rewrite Hmode. destruct (Z.ltb_spec 0 (totalPages s)); [|lia].
    destruct (Z.eqb_spec (currentPage s - 1) (totalPages s)); [lia|].
    unfold nextPage.
    cbn [andb negb currentPage setCurrentPage].
    change (totalPages (setCurrentPage (currentPage s - 1) s))
      with (totalPages s).
    replace (Z.min (totalPages s) (currentPage s - 1 + 1)) with (currentPage s)
      by lia.
    destruct s; reflexivity.
  - intros Heq. simpl. rewrite Heq, Z.eqb_refl.
    rewrite andb_false_r. reflexivity.
  - intros Heq. simpl. rewrite Heq. cbn. rewrite andb_false_r. reflexivity.
Qed.

Lemma next_and_previous_undo_each_other_witness :
  exists s s1,
    secondPage = Some s
    /\ reachable s
    /\ step s ClickPrevious = Some s1
    /\ currentPage s1 = 1
    /\ step s1 ClickNext = Some s
    /\ step s ClickNext = None.
Proof.
  destruct secondPage as [s|] eqn:Hs; [|vm_compute in Hs; discriminate].
  assert (Hreach : reachable s) by exact (run_reachable _ s Hs).
  destruct (next_and_previous_undo_each_other s Hreach) as [_ [Hback [Hlast _]]].
  destruct (step s ClickPrevious) as [s1|] eqn:Hs1.
  - exists s, s1.
    split; [reflexivity|]. split; [exact Hreach|]. split; [exact Hs1|].
    split; [vm_compute in Hs; injection Hs as <-; vm_compute in Hs1;
            injection Hs1 as <-; reflexivity|].
    split; [exact (Hback s1 eq_refl)|].
    apply Hlast. vm_compute in Hs. injection Hs as <-. reflexivity.
  - vm_compute in Hs. injection Hs as <-. vm_compute in Hs1. discriminate.
Defined.

Lemma genderClick_view (s s' : State) (userId : string) (g : GenderValue) :
  step s (ClickGender userId g None) = Some s' ->
  filteredGenderUsers s'
  = derivedView
      (map (fun u => if String.eqb (id u) userId
                     then with_gender (gender_string g) u else u)
           (genderUsers s))
      (genderFilter s) (sortOrder s).
Proof.
  intros Hstep. simpl in Hstep.
  destruct (mode_eqb (mode s) gender_verification
            && existsb (fun u => String.eqb (id u) userId) (paginatedUsers s));
    [|discriminate].
  injection Hstep as <-.
  unfold runEffects, modeEffect. cbn.
  destruct (mode s); cbn; reflexivity.
Qed.

(** X12: a confirmed gender correction from the list moves the record at
    once: under the "unknown" filter no record with the corrected
    identifier is left in the list, and under the filter of the gender
    just given every record of the dataset with that identifier is in the
    list, with its new gender. *)
Theorem corrected_record_changes_list :
  forall (s s' : State) (userId : string) (g : GenderValue),
    step s (ClickGender userId g None) = Some s' ->
    (genderFilter s = f_unknown ->
     ~ In userId (map id (filteredGenderUsers s')))
    /\ (genderFilter s = f_named g ->
        forall u, In u (genderUsers s) -> id u = userId ->
                  In (with_gender (gender_string g) u) (filteredGenderUsers s')).
Proof.
  intros s s' userId g Hstep.
  rewrite (genderClick_view s s' userId g Hstep). unfold derivedView. split.
  - intros ->. rewrite in_map_iff. intros [u [Hid Hin]].
    apply (Permutation_in u (js_sort_perm _ _ _)) in Hin.
    cbn [applyGenderFilter] in Hin. apply filter_In in Hin.
    destruct Hin as [Hin Hmatch]. apply in_map_iff in Hin.
    destruct Hin as [u0 [Hu0 _]]. cbn [matchesFilter] in Hmatch.
    destruct (String.eqb (id u0) userId) eqn:Heq.
    + subst u. destruct g; discriminate.
    + subst u. apply String.eqb_neq in Heq. congruence.
  - intros -> u Hin Hid.
    apply (Permutation_in _ (Permutation_sym (js_sort_perm _ _ _))).
    cbn [applyGenderFilter]. apply filter_In. split.
    + apply in_map_iff. exists u. split; [|exact Hin].
      rewrite Hid, String.eqb_refl. reflexivity.
    + unfold matchesFilter, gender_is. cbn. apply String.eqb_refl.
Qed.

Lemma corrected_record_changes_list_witness :
  exists s s',
    run initState
        [ClickVerifyGenders; AllUsersLoaded (Some (sampleUsers 0 3));
         SelectFilter f_unknown] = Some s
    /\ map id (filteredGenderUsers s) = [sampleId 0; sampleId 1; sampleId 2]
    /\ step s (ClickGender (sampleId 1) Female None) = Some s'
    /\ map id (filteredGenderUsers s') = [sampleId 0; sampleId 2]
    /\ ~ In (sampleId 1) (map id (filteredGenderUsers s')).
Proof.
  destruct (run initState
        [ClickVerifyGenders; AllUsersLoaded (Some (sampleUsers 0 3));
         SelectFilter f_unknown]) as [s|] eqn:Hs;
    [|vm_compute in Hs; discriminate].
  assert (Hf : genderFilter s = f_unknown)
    by (vm_compute in Hs; injection Hs as <-; reflexivity).
  destruct (step s (ClickGender (sampleId 1) Female None)) as [s'|] eqn:Hs'.
  - destruct (corrected_record_changes_list s s' (sampleId 1) Female Hs')
      as [Hgone _].
    exists s, s'.
    split; [reflexivity|].
    split; [vm_compute in Hs; injection Hs as <-; reflexivity|].
    split; [exact Hs'|].
    split; [vm_compute in Hs; injection Hs as <-; vm_compute in Hs';
            injection Hs' as <-; reflexivity|].
    exact (Hgone Hf).
  - vm_compute in Hs. injection Hs as <-. vm_compute in Hs'. discriminate.
Defined.

(** ** The image with its spinner *)

Lemma image_run_fields (es : list ImageWithLoader.Event) :
  forall s : ImageWithLoader.State,
    ImageWithLoader.isLoading (ImageWithLoader.run s es)
    = match es with
      | [] => ImageWithLoader.isLoading s
      | _ :: _ => false
      end
    /\ ImageWithLoader.hasError (ImageWithLoader.run s es)
       = ImageWithLoader.hasError s || existsb ImageWithLoader.isError es.
Proof.
  unfold ImageWithLoader.run.
  induction es as [|e es IH]; intros s; cbn [fold_left existsb].
  - rewrite orb_false_r. auto.
  - destruct (IH (ImageWithLoader.step s e)) as [Hl He]. rewrite Hl, He.
    split.
    + destruct es, e; reflexivity.
    + destruct e; cbn; [reflexivity|]. rewrite orb_true_r. reflexivity.
Qed.

(** X13: an image starts with its spinner; the first load or error event
    removes the spinner for good; once an error event has come, the image
    stays hidden and the failure text stays, whatever load events follow;
    the spinner and the failure text are never shown together. *)
Theorem image_spinner_and_failure :
  forall es : list ImageWithLoader.Event,
    let s := ImageWithLoader.run ImageWithLoader.initState es in
    ImageWithLoader.showsSpinner s
    = match es with
      | [] => true
      | _ :: _ => false
      end
    /\ ImageWithLoader.showsFailure s = existsb ImageWithLoader.isError es
    /\ ImageWithLoader.imageHidden s = existsb ImageWithLoader.isError es
    /\ ImageWithLoader.showsSpinner s && ImageWithLoader.showsFailure s = false.
Proof.
  intros es s. subst s.
  destruct (image_run_fields es ImageWithLoader.initState) as [Hl He].
  unfold ImageWithLoader.showsSpinner, ImageWithLoader.showsFailure,
    ImageWithLoader.imageHidden.
  rewrite Hl, He. cbn [ImageWithLoader.initState ImageWithLoader.isLoading
                       ImageWithLoader.hasError orb].
  destruct es as [|e es]; [repeat split|].
  destruct (existsb ImageWithLoader.isError (e :: es)); repeat split.
Qed.

(** ** The greeting *)

Lemma before_at_no_at (email : string) : no_at (before_at email) = true.
Proof.
  induction email as [|c rest IH]; [reflexivity|].
  cbn [before_at]. destruct (Ascii.eqb c "@") eqn:Hc; [reflexivity|].
  cbn [no_at]. rewrite Hc, IH. reflexivity.
Qed.

(** X14: the name of the greeting is never empty; it is the metadata
    name whenever that is present and not empty; otherwise it is the part
    of the e-mail address before the first ["@"] or, when that is missing
    or empty, ["Admin"], and so contains no ["@"]. *)
Theorem adminName_never_empty :
  forall (full_name email : option string),
    adminNameOf full_name email <> EmptyString
    /\ (forall n, full_name = Some n -> n <> EmptyString ->
                  adminNameOf full_name email = n)
    /\ (truthy full_name = false ->
        no_at (adminNameOf full_name email) = true
        /\ ((exists e, email = Some e /\ before_at e <> EmptyString
                       /\ adminNameOf full_name email = before_at e)
            \/ adminNameOf full_name email = "Admin"%string)).
Proof.
  intros full_name email.
  assert (Hmail : or_string (option_map before_at email) "Admin" <> EmptyString
                  /\ no_at (or_string (option_map before_at email) "Admin") = true
                  /\ ((exists e, email = Some e /\ before_at e <> EmptyString
                                 /\ or_string (option_map before_at email) "Admin"
                                    = before_at e)
                      \/ or_string (option_map before_at email) "Admin"
                         = "Admin"%string)).
  { destruct email as [e|]; cbn [option_map or_string].
    - destruct (String.eqb_spec (before_at e) EmptyString) as [Heq|Hne].
      + split; [discriminate|]. split; [reflexivity|]. right. reflexivity.
      + split; [exact Hne|]. split; [apply before_at_no_at|].
        left. exists e. auto.
    - split; [discriminate|]. split; [reflexivity|]. right. reflexivity. }
  destruct Hmail as [Hne [Hno Hwhich]].
  unfold adminNameOf. destruct full_name as [n|]; cbn [or_string truthy].
  - destruct (String.eqb_spec n EmptyString) as [Heq|Hn]; cbn [negb].
    + split; [exact Hne|]. split; [intros n' Hn' Hnn; congruence|].
      intros _. split; [exact Hno | exact Hwhich].
    + split; [exact Hn|]. split; [intros n' Hn' _; congruence|]. discriminate.
  - split; [exact Hne|]. split; [discriminate|].
    intros _. split; [exact Hno | exact Hwhich].
Qed.

Lemma adminName_never_empty_witness :
  truthy (Some EmptyString) = false
  /\ adminNameOf (Some EmptyString) (Some "ada@example.org"%string) = "ada"%string
  /\ adminNameOf None (Some "@example.org"%string) = "Admin"%string
  /\ no_at (adminNameOf (Some EmptyString) (Some "ada@example.org"%string)) = true.
Proof.
  destruct (adminName_never_empty (Some EmptyString) (Some "ada@example.org"%string))
    as [_ [_ Hmail]].
  destruct (Hmail eq_refl) as [Hno _].
  split; [reflexivity|]. split; [reflexivity|]. split; [reflexivity | exact Hno].
Defined.

(** ** The two counts *)

Lemma loadNextBatch_counts (r s : State) (b : bool) (reply : PendingReply) :
  0 <= or_zero (q_count (pr_query reply)) ->
  0 <= totalPending (loadNextBatch r b reply s)
  /\ totalUnknown (loadNextBatch r b reply s) = totalUnknown s.
Proof.
  intros Hc. unfold loadNextBatch, fetchPendingUsers.
  destruct (q_error (pr_query reply)), b, (isUserVerifying r); cbn;
    split; trivial; lia.
Qed.

Lemma runEffects_counts (b : bool) (prev next : State) :
  totalPending (runEffects b prev next) = totalPending next
  /\ totalUnknown (runEffects b prev next) = totalUnknown next.
Proof.
  unfold runEffects, modeEffect.
  destruct (mode_eqb (mode prev) (mode next)); [|destruct (mode next)]; cbn;
    destruct (b || negb (filter_eqb (genderFilter prev) (genderFilter next))
              || negb (sort_eqb (sortOrder prev) (sortOrder next)));
    cbn; auto.
Qed.

Lemma step_keeps_counts (s s' : State) (e : Event) :
  countsNonNegative e = true ->
  step s e = Some s' ->
  0 <= totalPending s /\ 0 <= totalUnknown s ->
  0 <= totalPending s' /\ 0 <= totalUnknown s'.
Proof.
  intros Hc Hstep [Hp Hu].
  assert (Hload : forall r b reply,
            0 <= or_zero (q_count (pr_query reply)) ->
            0 <= totalPending (loadNextBatch r b reply s)
            /\ 0 <= totalUnknown (loadNextBatch r b reply s)).
  { intros r b reply H0.
    destruct (loadNextBatch_counts r s b reply H0) as [H1 H2].
    rewrite H2. auto. }
  assert (Heff : forall b next,
            0 <= totalPending next /\ 0 <= totalUnknown next ->
            0 <= totalPending (runEffects b s next)
            /\ 0 <= totalUnknown (runEffects b s next)).
  { intros b next H0. destruct (runEffects_counts b s next) as [H1 H2].
    rewrite H1, H2. exact H0. }
  destruct e; simpl in Hstep, Hc.
  - injection Hstep as <-. apply Hload. apply Z.leb_le, Hc.
  - injection Hstep as <-. apply Hload. apply Z.leb_le, Hc.
  - injection Hstep as <-. cbn. split; [exact Hp | apply Z.leb_le, Hc].
  - destruct (autoLoadDue s); [|discriminate]. injection Hstep as <-.
    apply Hload. apply Z.leb_le, Hc.
  - destruct (mode_eqb (mode s) dashboard && negb (length (queueUsers s) =? 0)%nat);
      [|discriminate].
    injection Hstep as <-. unfold startVerification.
    destruct (length (queueUsers s) =? 0)%nat; cbn; auto.
  - destruct (mode_eqb (mode s) dashboard); [|discriminate].
    injection Hstep as <-. apply Heff. cbn. auto.
  - destruct (mode s); [discriminate| |]; injection Hstep as <-; cbn; auto.
  - destruct (mode s); try discriminate.
    destruct (currentUser s) as [cu|] eqn:Hcu; [|discriminate].
    injection Hstep as <-. unfold handleDecision. rewrite Hcu.
    match goal with |- context [if ?c then _ else _] => destruct c end;
      cbn; split; trivial; lia.
  - destruct (mode s); try discriminate.
    destruct (currentUser s) as [cu|] eqn:Hcu; [|discriminate].
    injection Hstep as <-. unfold handleGenderChange. rewrite Hcu.
    destruct reply; cbn; auto.
  - injection Hstep as <-. cbn. auto.
  - injection Hstep as <-. apply Heff. cbn. auto.
  - destruct (mode_eqb (mode s) gender_verification); [|discriminate].
    injection Hstep as <-. apply Heff. cbn. auto.
  - destruct (mode_eqb (mode s) gender_verification); [|discriminate].
    injection Hstep as <-. apply Heff. cbn. auto.
  - destruct (mode_eqb (mode s) gender_verification && (0 <? totalPages s)
              && negb (currentPage s =? 1)); [|discriminate].
    injection Hstep as <-. cbn. auto.
  - destruct (mode_eqb (mode s) gender_verification && (0 <? totalPages s)
              && negb (currentPage s =? totalPages s)); [|discriminate].
    injection Hstep as <-. cbn. auto.
  - destruct (mode_eqb (mode s) gender_verification
              && existsb (fun u => String.eqb (id u) userId) (paginatedUsers s));
      [|discriminate].
    destruct reply as [err|]; injection Hstep as <-; apply Heff; cbn.
    + auto.
    + split; [exact Hp | lia].
Qed.

(** X15: as long as the store never reports a negative count, neither
    the total-pending count nor the unknown-gender count is ever
    negative, whatever the decisions and corrections made in between. *)
Theorem counts_never_negative :
  forall (es : list Event) (s : State),
    forallb countsNonNegative es = true ->
    run initState es = Some s ->
    0 <= totalPending s /\ 0 <= totalUnknown s.
Proof.
  intros es.
  assert (H : forall s0 s,
            0 <= totalPending s0 /\ 0 <= totalUnknown s0 ->
            forallb countsNonNegative es = true ->
            run s0 es = Some s ->
            0 <= totalPending s /\ 0 <= totalUnknown s).
  { induction es as [|e es IH]; intros s0 s H0 Hall Hrun; simpl in Hrun.
    - injection Hrun as <-. exact H0.
    - cbn [forallb] in Hall. apply andb_true_iff in Hall.
      destruct Hall as [He Hes].
      destruct (step s0 e) as [s1|] eqn:Hstep; [|discriminate].
      apply (IH s1 s); trivial.
      apply (step_keeps_counts s0 s1 e He Hstep H0). }
  intros s. apply H. cbn. lia.
Qed.

Lemma counts_never_negative_witness :
  let es := [UnknownCount (Some 0);
             InitialLoad (storeAnswers (sampleUsers 0 1));
             ClickVerifyUsers; ClickDecision dec_verified None;
             Tick (storeFails "timeout"); ClickVerifyGenders;
             AllUsersLoaded (Some (sampleUsers 0 1));
             ClickGender (sampleId 0) Male None] in
  forallb countsNonNegative es = true
  /\ exists s, run initState es = Some s
               /\ totalPending s = 0
               /\ totalUnknown s = 0.
Proof.
  intros es.
  assert (Hall : forallb countsNonNegative es = true) by reflexivity.
  split; [exact Hall|].
  destruct (run initState es) as [s|] eqn:Hs; [|vm_compute in Hs; discriminate].
  destruct (counts_never_negative es s Hall Hs) as [Hp Hu].
  exists s. split; [reflexivity|].
  split; vm_compute in Hs; injection Hs as <-; reflexivity.
Defined.

(** ** The earlier dashboard page, decisions *)

(** X16: on the earlier page a decision on the displayed entry sends the
    decision string itself ([verified] or [rejected]) for the entry's
    identifier; whatever the update resolves with, the list is the one of
    the deciding render without that identifier, the next entry of the
    list is displayed, or, when the list is used up, no entry is
    displayed and the review ends; nothing is logged. *)
Theorem simple_page_decision :
  forall (r s : SimplePage.State) (d : Decision) (reply : MutationReply)
         (cu : PendingUser),
    SimplePage.currentUser r = Some cu ->
    let s' := SimplePage.handleDecision r d reply s in
    SimplePage.handleDecision_update r d
    = Some (pid cu, match d with
                    | dec_verified => "verified"%string
                    | dec_rejected => "rejected"%string
                    end)
    /\ SimplePage.pendingUsers s'
       = filter (fun u => negb (String.eqb (pid u) (pid cu)))
                (SimplePage.pendingUsers r)
    /\ ~ In (pid cu) (ids (SimplePage.pendingUsers s'))
    /\ SimplePage.console s' = SimplePage.console s
    /\ match SimplePage.pendingUsers s' with
       | first :: _ =>
           SimplePage.currentUser s' = Some first
           /\ SimplePage.isVerifying s' = SimplePage.isVerifying s
       | [] =>
           SimplePage.currentUser s' = None
           /\ SimplePage.isVerifying s' = false
       end.
Proof.
  intros r s d reply cu Hcu s'. subst s'.
  unfold SimplePage.handleDecision_update, SimplePage.handleDecision.
  rewrite Hcu.
  pose proof (filter_other_ids (pid cu) (SimplePage.pendingUsers r)) as Hgone.
  destruct (filter _ (SimplePage.pendingUsers r)) as [|first rest]; cbn.
  - split; [destruct d; reflexivity|]. auto.
  - split; [destruct d; reflexivity|]. auto.
Qed.

Lemma simple_page_decision_witness :
  let r := SimplePage.mkState
             [mkPendingUser (sampleUser 0) []; mkPendingUser (sampleUser 1) []]
             (Some (mkPendingUser (sampleUser 0) [])) true [] in
  SimplePage.currentUser r = Some (mkPendingUser (sampleUser 0) [])
  /\ ids (SimplePage.pendingUsers
            (SimplePage.handleDecision r dec_rejected None r))
     = [sampleId 1]
  /\ SimplePage.handleDecision_update r dec_rejected
     = Some (sampleId 0, "rejected"%string).
Proof.
  intros r.
  destruct (simple_page_decision r r dec_rejected None
              (mkPendingUser (sampleUser 0) []) eq_refl) as [Hupd [Hq _]].
  split; [reflexivity|].
  split; [rewrite Hq; reflexivity | exact Hupd].
Defined.

(** ** Leaving and resuming the review *)

(** X17: "Back to Dashboard" followed by "Verify Users" resumes the
    review: every field is as before, except that the entry displayed is
    the head of the queue, which a refresh may have replaced in between;
    with the head already displayed the state is the same.  With an empty
    queue "Verify Users" is not available. *)
Theorem back_and_resume :
  forall s : State,
    reachable s ->
    mode s = user_verification ->
    exists s1,
      step s ClickBack = Some s1
      /\ mode s1 = dashboard
      /\ isUserVerifying s1 = false
      /\ (queueUsers s = [] -> step s1 ClickVerifyUsers = None)
      /\ (queueUsers s <> [] ->
          step s1 ClickVerifyUsers
          = Some (setCurrentUser (hd_error (queueUsers s)) s))
      /\ (currentUser s = hd_error (queueUsers s) -> queueUsers s <> [] ->
          step s1 ClickVerifyUsers = Some s).
Proof.
  intros s Hreach Hmode.
  destruct (reachable_reviewInv s Hreach) as [Hiff _].
  pose proof (proj2 Hiff Hmode) as Hv.
  exists (setMode dashboard (setIsUserVerifying false s)).
  split; [simpl; rewrite Hmode; reflexivity|].
  split; [reflexivity|]. split; [reflexivity|].
  assert (Hresume : queueUsers s <> [] ->
            step (setMode dashboard (setIsUserVerifying false s)) ClickVerifyUsers
            = Some (setCurrentUser (hd_error (queueUsers s)) s)).
  { intros Hne. simpl. unfold startVerification.
    cbn [queueUsers setMode setIsUserVerifying].
    destruct (queueUsers s) as [|first rest] eqn:Hq; [congruence|].
    cbn. destruct s; cbn in *. subst. reflexivity. }
  split; [|split].
  - intros Hq. simpl. cbn [queueUsers setMode setIsUserVerifying].
    rewrite Hq. reflexivity.
  - exact Hresume.
  - intros Hcu Hne. rewrite (Hresume Hne), <- Hcu. destruct s; reflexivity.
Qed.

Lemma back_and_resume_witness :
  exists s s1,
    twoLoadedReviewing = Some s
    /\ reachable s
    /\ mode s = user_verification
    /\ step s ClickBack = Some s1
    /\ step s1 ClickVerifyUsers = Some s.
Proof.
  destruct (run initState
              [InitialLoad (storeAnswers (sampleUsers 0 2)); ClickVerifyUsers])
    as [s|] eqn:Hs; [|vm_compute in Hs; discriminate].
  assert (Hreach : reachable s) by exact (run_reachable _ s Hs).
  assert (Hmode : mode s = user_verification)
    by (vm_compute in Hs; injection Hs as <-; reflexivity).
  assert (Hcu : currentUser s = hd_error (queueUsers s))
    by (vm_compute in Hs; injection Hs as <-; reflexivity).
  assert (Hne : queueUsers s <> [])
    by (vm_compute in Hs; injection Hs as <-; discriminate).
  destruct (back_and_resume s Hreach Hmode) as [s1 [Hback [_ [_ [_ [_ Hsame]]]]]].
  exists s, s1.
  split; [exact Hs|]. split; [exact Hreach|]. split; [exact Hmode|].
  split; [exact Hback | exact (Hsame Hcu Hne)].
Defined.

(** ** A correction for a record that is gone *)

(** X18: a confirmed correction for an identifier that is not in the
    dataset leaves every record of the dataset as it is. *)
Theorem handleGenderUpdate_missing_record :
  forall (userId : string) (g : GenderValue) (s : State),
    ~ In userId (map id (genderUsers s)) ->
    genderUsers (handleGenderUpdate userId g None s) = genderUsers s.
Proof.
  intros userId g s Hnot. cbn.
  rewrite <- (map_id (genderUsers s)) at 2.
  apply map_ext_in. intros u Hin.
  destruct (String.eqb_spec (id u) userId) as [Heq|]; [|reflexivity].
  exfalso. apply Hnot. rewrite <- Heq. apply in_map, Hin.
Qed.

Lemma handleGenderUpdate_missing_record_witness :
  let s := setGenderUsers (sampleUsers 0 2) initState in
  ~ In (sampleId 7) (map id (genderUsers s))
  /\ genderUsers (handleGenderUpdate (sampleId 7) Male None s) = sampleUsers 0 2.
Proof.
  intros s.
  assert (Hnot : ~ In (sampleId 7) (map id (genderUsers s))).
  { intros [H|[H|[]]]; discriminate. }
  split; [exact Hnot|].
  exact (handleGenderUpdate_missing_record (sampleId 7) Male s Hnot).
Defined.

(** ** The login page *)

Lemma login_run_location (es : list LoginPage.Event) :
  forall s : LoginPage.State,
    LoginPage.location (LoginPage.run s es)
    = if existsb LoginPage.admits es then "/dashboard"%string
      else LoginPage.location s.
Proof.
  unfold LoginPage.run.
  induction es as [|e es IH]; intros s; cbn [fold_left existsb]; [reflexivity|].
  rewrite IH.
  destruct (existsb LoginPage.admits es); [rewrite orb_true_r; reflexivity|].
  rewrite orb_false_r.
  destruct e as [[u|] [row|]|event [u|] [row|]| |]; cbn; try reflexivity;
    destruct (String.eqb event "SIGNED_IN"); reflexivity.
Qed.

(** X19: the login page leaves for the dashboard exactly when a session
    was found, or a [SIGNED_IN] event with a session arrived, and the
    table of administrators returned a row for its user; a session
    without a row, other events, and the success or failure of Google's
    button alone never change the location. *)
Theorem login_redirects_admins_only :
  forall es : list LoginPage.Event,
    LoginPage.location (LoginPage.run LoginPage.initState es)
    = if existsb LoginPage.admits es then "/dashboard"%string
      else "/login"%string.
Proof. intros es. apply login_run_location. Qed.
